(** * missy/messaging: the reader's consume loop (reader.go)

    A shallow embedding of [messaging/reader.go]: the broker adapter
    [readBroker], the constructor [NewReader], and the methods [Read] and
    [Close] of [missyReader] with the background consume loop that [Read]
    starts.  Interfaces of the source ([BrokerReader], [Writer]) are type
    classes; every call the loop makes on a collaborator is recorded, with its
    result, in a trace, so that "one publish", "no commit" and "what was
    logged" are statements about that trace. *)

From Stdlib Require Import ZArith List String Ascii Bool Lia.
From Stdlib.Strings Require Import Byte.
Import ListNotations.
Local Open Scope string_scope.
Local Open Scope list_scope.
Local Open Scope Z_scope.

(** ** Go values *)

Module Go.

(** [error]: an error value is its message; [nil] is [None]. *)
Definition error := string.

Definition bytes := list byte.

(** [int] on a 64-bit platform, with its wrap-around. *)
Definition int_min : Z := - 2 ^ 63.
Definition int_max : Z := 2 ^ 63 - 1.
Definition is_int (z : Z) : Prop := int_min <= z <= int_max.
Definition wrap_int (z : Z) : Z := (z + 2 ^ 63) mod 2 ^ 64 - 2 ^ 63.
Definition int_add (a b : Z) : Z := wrap_int (a + b).

Definition quote : string := String (ascii_of_nat 34) EmptyString.

(** [errors.New] *)
Definition errors_New (msg : string) : error := msg.

(** [strconv.Atoi]: an optional sign, then one or more decimal digits; any
    other text is a syntax error, a value outside [int] a range error.  On an
    error the returned number is 0 (syntax) or the nearest bound (range). *)
Definition digit_of (c : ascii) : option Z :=
  let n := Z.of_nat (nat_of_ascii c) in
  if (48 <=? n) && (n <=? 57) then Some (n - 48) else None.

Fixpoint parse_digits (s : string) (acc : Z) : option Z :=
  match s with
  | EmptyString => Some acc
  | String c rest =>
      match digit_of c with
      | Some d => parse_digits rest (acc * 10 + d)
      | None => None
      end
  end.

Definition syntax_error (fn s : string) : error :=
  ("strconv." ++ fn ++ ": parsing " ++ quote ++ s ++ quote ++ ": invalid syntax")%string.
Definition range_error (fn s : string) : error :=
  ("strconv." ++ fn ++ ": parsing " ++ quote ++ s ++ quote ++ ": value out of range")%string.

Definition Atoi (s : string) : Z * option error :=
  let '(neg, body) :=
    match s with
    | String "-"%char rest => (true, rest)
    | String "+"%char rest => (false, rest)
    | _ => (false, s)
    end in
  match body with
  | EmptyString => (0, Some (syntax_error "Atoi" s))
  | _ =>
      match parse_digits body 0 with
      | None => (0, Some (syntax_error "Atoi" s))
      | Some n =>
          let v := if neg then - n else n in
          if v <? int_min then (int_min, Some (range_error "Atoi" s))
          else if int_max <? v then (int_max, Some (range_error "Atoi" s))
          else (v, None)
      end
  end.

(** [context.Context]: only whether it is already done matters here. *)
Record context := { ctxDone : bool }.
Definition Background : context := {| ctxDone := false |}.

End Go.
Import Go.

(** ** Messages *)

(** [Message], with the fields reader.go reads and writes. *)
Record Message := {
  Topic : string;
  Key : bytes;
  Value : bytes;
  Time : Z;
  Partition : Z;
  Offset : Z;
  RetryCounter : Z
}.

(** [Message{}] *)
Definition zeroMessage : Message :=
  {| Topic := ""; Key := []; Value := []; Time := 0; Partition := 0;
     Offset := 0; RetryCounter := 0 |}.

(** [kafka.Message] of the broker library.  [KHeaders] stands for what a
    record carries besides the fields the adapter copies. *)
Record KafkaMessage := {
  KTopic : string;
  KPartition : Z;
  KOffset : Z;
  KKey : bytes;
  KValue : bytes;
  KHeaders : list (string * bytes);
  KTime : Z
}.

(** [kafka.ReaderConfig], the fields [NewReader] sets. *)
Record ReaderConfig := {
  Brokers : list string;
  GroupID : string;
  CfgTopic : string;
  CommitInterval : Z;
  MinBytes : Z;
  MaxBytes : Z
}.

(** ** Interfaces *)

(** [BrokerReader]: each method returns its results and the receiver's next
    state. *)
Class BrokerReader (B : Type) := {
  FetchMessage : context -> B -> (Message * option error) * B;
  CommitMessages : context -> list Message -> B -> option error * B;
  ReadMessage : context -> B -> (Message * option error) * B;
  Close : B -> option error * B
}.

(** [Writer], the two methods the reader calls. *)
Class Writer (W : Type) := {
  Write : bytes -> bytes -> W -> option error * W;
  WriteWithRetryCounter : bytes -> bytes -> Z -> W -> option error * W
}.

(** ** The broker adapter *)

Section ReadBroker.

(** [*kafka.Reader] and the methods of it that the adapter calls. *)
Context {K : Type}.
Variable kafka_FetchMessage : context -> K -> (KafkaMessage * option error) * K.
Variable kafka_ReadMessage : context -> K -> (KafkaMessage * option error) * K.
Variable kafka_CommitMessages : context -> list KafkaMessage -> K -> option error * K.
Variable kafka_Close : K -> option error * K.

Record readBroker := { Reader : K }.

Definition fromKafka (m : KafkaMessage) : Message :=
  {| Topic := KTopic m; Key := KKey m; Value := KValue m; Time := KTime m;
     Partition := KPartition m; Offset := KOffset m; RetryCounter := 0 |}.

Definition readBroker_FetchMessage (ctx : context) (rm : readBroker)
  : (Message * option error) * readBroker :=
  let '((m, err), k) := kafka_FetchMessage ctx (Reader rm) in
  match err with
  | Some e => ((zeroMessage, Some e), {| Reader := k |})
  | None => ((fromKafka m, None), {| Reader := k |})
  end.

Definition readBroker_ReadMessage (ctx : context) (rm : readBroker)
  : (Message * option error) * readBroker :=
  let '((m, err), k) := kafka_ReadMessage ctx (Reader rm) in
  match err with
  | Some e => ((zeroMessage, Some e), {| Reader := k |})
  | None => ((fromKafka m, None), {| Reader := k |})
  end.

Definition toKafka (m : Message) : KafkaMessage :=
  {| KTopic := Topic m; KPartition := Partition m; KOffset := Offset m;
     KKey := Key m; KValue := Value m; KHeaders := []; KTime := Time m |}.

Definition readBroker_CommitMessages (ctx : context) (msgs : list Message)
    (rm : readBroker) : option error * readBroker :=
  let kafkaMessages := map toKafka msgs in
  let '(err, k) := kafka_CommitMessages ctx kafkaMessages (Reader rm) in
  (err, {| Reader := k |}).

Definition readBroker_Close (rm : readBroker) : option error * readBroker :=
  let '(err, k) := kafka_Close (Reader rm) in (err, {| Reader := k |}).

#[export] Instance readBroker_BrokerReader : BrokerReader readBroker := {
  FetchMessage := readBroker_FetchMessage;
  CommitMessages := readBroker_CommitMessages;
  ReadMessage := readBroker_ReadMessage;
  Close := readBroker_Close
}.

End ReadBroker.

Arguments readBroker K : clear implicits.

(** ** What the loop does to the outside: log entries and calls *)

(** One constructor per logging call of reader.go, with the values it
    formats. *)
Inductive LogEntry :=
| LogDefaultRetries                       (* log.Debug: number.of.retries was not set *)
| LogNewMessage (m : Message)             (* log.Infof: new message *)
| LogCallbackError (err : error)          (* log.Errorf: cannot commit a message: err *)
| LogWritingDLQ                           (* log.Error: writing message to DLQ *)
| LogRetryNumber (n : Z)                  (* log.Infof: retry number *)
| LogCommitError (m : Message) (err : error). (* log.Errorf: cannot commit message ... with error *)

Inductive Level := LevelDebug | LevelInfo | LevelError.

Definition level (e : LogEntry) : Level :=
  match e with
  | LogDefaultRetries => LevelDebug
  | LogNewMessage _ | LogRetryNumber _ => LevelInfo
  | LogCallbackError _ | LogWritingDLQ | LogCommitError _ _ => LevelError
  end.

(** The error values an entry prints. *)
Definition entry_errors (e : LogEntry) : list error :=
  match e with
  | LogCallbackError err | LogCommitError _ err => [err]
  | _ => []
  end.

(** The two writers a reader holds. *)
Inductive WriterField := FieldWriter | FieldDlqWriter.

(** A call on a collaborator, with what it returned. *)
Inductive Event :=
| EvFetch (res : Message * option error)
| EvCallback (m : Message) (res : option error)
| EvCommit (msgs : list Message) (res : option error)
| EvWrite (w : WriterField) (key value : bytes) (res : option error)
| EvWriteWithRetryCounter (w : WriterField) (key value : bytes)
    (retryCounter : Z) (res : option error)
| EvLog (e : LogEntry)
| EvClose (res : option error).

Definition is_publish (e : Event) : bool :=
  match e with
  | EvWrite _ _ _ _ | EvWriteWithRetryCounter _ _ _ _ _ => true
  | _ => false
  end.

Definition is_commit (e : Event) : bool :=
  match e with EvCommit _ _ => true | _ => false end.

Definition is_callback (e : Event) : bool :=
  match e with EvCallback _ _ => true | _ => false end.

Definition publishes (t : list Event) : list Event := filter is_publish t.
Definition commits (t : list Event) : list Event := filter is_commit t.
Definition callbacks (t : list Event) : list Event := filter is_callback t.

Definition log_entries (t : list Event) : list LogEntry :=
  flat_map (fun e => match e with EvLog l => [l] | _ => [] end) t.

(** The error a publish returned, if it returned one. *)
Definition publish_error (e : Event) : option error :=
  match e with
  | EvWrite _ _ _ res | EvWriteWithRetryCounter _ _ _ _ res => res
  | _ => None
  end.

(** ** The reader *)

Section Reader.

Context {B W U : Type} {HB : BrokerReader B} {HW : Writer W}.

(** [ReadMessageFunc]: the callback, which may have a state [U] of its
    own. *)
Definition ReadMessageFunc := Message -> U -> option error * U.

Record missyReader := {
  brokers : list string;
  groupID : string;
  topic : string;
  brokerReader : B;
  readFunc : option ReadMessageFunc;
  writer : W;
  dlqWriter : W;
  numOfRetries : Z
}.

(** A goroutine started by [Read]: the callback its closure captured, and
    whether its loop is still running. *)
Record Goroutine := { gFunc : ReadMessageFunc; gRunning : bool }.

Record World := {
  reader : missyReader;
  user : U;
  trace : list Event;
  goroutines : list Goroutine
}.

Definition set_brokerReader (b : B) (mr : missyReader) : missyReader :=
  {| brokers := brokers mr; groupID := groupID mr; topic := topic mr;
     brokerReader := b; readFunc := readFunc mr; writer := writer mr;
     dlqWriter := dlqWriter mr; numOfRetries := numOfRetries mr |}.

Definition set_readFunc (f : option ReadMessageFunc) (mr : missyReader) : missyReader :=
  {| brokers := brokers mr; groupID := groupID mr; topic := topic mr;
     brokerReader := brokerReader mr; readFunc := f; writer := writer mr;
     dlqWriter := dlqWriter mr; numOfRetries := numOfRetries mr |}.

Definition set_writer (x : W) (mr : missyReader) : missyReader :=
  {| brokers := brokers mr; groupID := groupID mr; topic := topic mr;
     brokerReader := brokerReader mr; readFunc := readFunc mr; writer := x;
     dlqWriter := dlqWriter mr; numOfRetries := numOfRetries mr |}.

Definition set_dlqWriter (x : W) (mr : missyReader) : missyReader :=
  {| brokers := brokers mr; groupID := groupID mr; topic := topic mr;
     brokerReader := brokerReader mr; readFunc := readFunc mr; writer := writer mr;
     dlqWriter := x; numOfRetries := numOfRetries mr |}.

(** *** A state monad over the world *)

Definition M (A : Type) : Type := World -> A * World.
Definition ret {A} (a : A) : M A := fun w => (a, w).
Definition bind {A C} (c : M A) (k : A -> M C) : M C :=
  fun w => let '(a, w') := c w in k a w'.

Local Notation "x <- c ;; k" := (bind c (fun x => k))
  (at level 61, c at next level, right associativity).
Local Notation "c ;; k" := (bind c (fun _ => k))
  (at level 61, right associativity).

Definition get_reader : M missyReader := fun w => (reader w, w).

Definition emit (e : Event) : M unit := fun w =>
  (tt, {| reader := reader w; user := user w; trace := trace w ++ [e];
          goroutines := goroutines w |}).

Definition logf (e : LogEntry) : M unit := emit (EvLog e).

Definition on_reader (f : missyReader -> missyReader) : M unit := fun w =>
  (tt, {| reader := f (reader w); user := user w; trace := trace w;
          goroutines := goroutines w |}).

(** [mr.brokerReader.FetchMessage(ctx)] *)
Definition call_FetchMessage (ctx : context) : M (Message * option error) :=
  mr <- get_reader ;;
  let '(res, b) := FetchMessage ctx (brokerReader mr) in
  on_reader (set_brokerReader b) ;; emit (EvFetch res) ;; ret res.

(** [mr.brokerReader.CommitMessages(ctx, msgs...)] *)
Definition call_CommitMessages (ctx : context) (msgs : list Message) : M (option error) :=
  mr <- get_reader ;;
  let '(res, b) := CommitMessages ctx msgs (brokerReader mr) in
  on_reader (set_brokerReader b) ;; emit (EvCommit msgs res) ;; ret res.

(** [msgFunc(message)] *)
Definition call_msgFunc (msgFunc : ReadMessageFunc) (m : Message) : M (option error) :=
  fun w =>
    let '(res, u) := msgFunc m (user w) in
    (res, {| reader := reader w; user := u; trace := trace w ++ [EvCallback m res];
             goroutines := goroutines w |}).

(** [mr.dlqWriter.Write(key, value)] *)
Definition call_dlqWriter_Write (key value : bytes) : M (option error) :=
  mr <- get_reader ;;
  let '(res, x) := Write key value (dlqWriter mr) in
  on_reader (set_dlqWriter x) ;; emit (EvWrite FieldDlqWriter key value res) ;; ret res.

(** [mr.writer.WriteWithRetryCounter(key, value, retryCounter)] *)
Definition call_writer_WriteWithRetryCounter (key value : bytes) (rc : Z) : M (option error) :=
  mr <- get_reader ;;
  let '(res, x) := WriteWithRetryCounter key value rc (writer mr) in
  on_reader (set_writer x) ;;
  emit (EvWriteWithRetryCounter FieldWriter key value rc res) ;; ret res.

(** *** The consume loop *)

(** One pass through the body of the [for] of the goroutine in [Read].
    The result says whether the loop goes on ([continue], or the end of the
    body) or stops ([break]). *)
Definition iteration (msgFunc : ReadMessageFunc) : M bool :=
  let ctx := Background in
  r <- call_FetchMessage ctx ;;
  let '(message, err) := r in
  match err with
  | Some _ => ret false
  | None =>
      logf (LogNewMessage message) ;;
      cberr <- call_msgFunc msgFunc message ;;
      match cberr with
      | Some e =>
          logf (LogCallbackError e) ;;
          let retryCounter := RetryCounter message in
          mr <- get_reader ;;
          (if numOfRetries mr <=? RetryCounter message then
             logf LogWritingDLQ ;;
             _ <- call_dlqWriter_Write (Key message) (Value message) ;;
             ret tt
           else
             logf (LogRetryNumber (int_add retryCounter 1)) ;;
             _ <- call_writer_WriteWithRetryCounter (Key message) (Value message)
                    (int_add retryCounter 1) ;;
             ret tt) ;;
          ret true
      | None =>
          cerr <- call_CommitMessages ctx [message] ;;
          match cerr with
          | Some e => logf (LogCommitError message e)
          | None => ret tt
          end ;;
          ret true
      end
  end.

(** The loop, for at most [fuel] passes; the result says whether it has
    ended. *)
Fixpoint loop (fuel : nat) (msgFunc : ReadMessageFunc) : M bool :=
  match fuel with
  | O => ret false
  | S n =>
      continue <- iteration msgFunc ;;
      if continue then loop n msgFunc else ret true
  end.

(** *** Read and Close *)

Definition errReading : error :=
  errors_New "this reader is currently reading from underlying broker".

(** [mr.readFunc = &msgFunc] *)
Definition store_readFunc (msgFunc : ReadMessageFunc) : M unit :=
  on_reader (set_readFunc (Some msgFunc)).

(** [go func() { ... }()] *)
Definition go_loop (msgFunc : ReadMessageFunc) : M unit := fun w =>
  (tt, {| reader := reader w; user := user w; trace := trace w;
          goroutines := goroutines w ++ [{| gFunc := msgFunc; gRunning := true |}] |}).

Definition missyReader_Read (msgFunc : ReadMessageFunc) : M (option error) :=
  mr <- get_reader ;;
  match readFunc mr with
  | Some _ => ret (Some errReading)
  | None =>
      store_readFunc msgFunc ;;
      go_loop msgFunc ;;
      ret None
  end.

Definition missyReader_Close : M (option error) :=
  mr <- get_reader ;;
  let '(res, b) := Close (brokerReader mr) in
  on_reader (set_brokerReader b) ;; emit (EvClose res) ;; ret res.

(** *** Scheduling the goroutines *)

Fixpoint stop_at (i : nat) (gs : list Goroutine) : list Goroutine :=
  match gs, i with
  | [], _ => []
  | g :: rest, O => {| gFunc := gFunc g; gRunning := false |} :: rest
  | g :: rest, S j => g :: stop_at j rest
  end.

(** Goroutine [i], if it is running, makes one pass of its loop. *)
Definition run_goroutine (i : nat) : M unit := fun w =>
  match nth_error (goroutines w) i with
  | Some g =>
      if gRunning g then
        let '(continue, w') := iteration (gFunc g) w in
        if continue then (tt, w')
        else (tt, {| reader := reader w'; user := user w'; trace := trace w';
                     goroutines := stop_at i (goroutines w') |})
      else (tt, w)
  | None => (tt, w)
  end.

(** What can happen to a reader: a call of [Read], a call of [Close], a
    pass of one of its goroutines. *)
Inductive Op :=
| OpRead (msgFunc : ReadMessageFunc)
| OpClose
| OpStep (i : nat).

Definition apply_op (w : World) (o : Op) : World :=
  match o with
  | OpRead f => snd (missyReader_Read f w)
  | OpClose => snd (missyReader_Close w)
  | OpStep i => snd (run_goroutine i w)
  end.

Definition run_ops (ops : list Op) (w : World) : World := fold_left apply_op ops w.

(** *** Concurrent calls of Read *)

(** [Read] has no lock: its statements are separate steps that calls on
    other goroutines can interleave with.  A call is at its check of
    [mr.readFunc], at the store, at the [go] statement, or has returned. *)
Inductive ReadPC :=
| AtCheck (msgFunc : ReadMessageFunc)
| AtStore (msgFunc : ReadMessageFunc)
| AtGo (msgFunc : ReadMessageFunc)
| Returned (res : option error).

Definition read_step (pc : ReadPC) (w : World) : ReadPC * World :=
  match pc with
  | AtCheck f =>
      match readFunc (reader w) with
      | Some _ => (Returned (Some errReading), w)
      | None => (AtStore f, w)
      end
  | AtStore f => (AtGo f, snd (store_readFunc f w))
  | AtGo f => (Returned None, snd (go_loop f w))
  | Returned r => (Returned r, w)
  end.

Record Conc := { cworld : World; calls : list ReadPC }.

Fixpoint set_nth {A} (i : nat) (x : A) (l : list A) : list A :=
  match l, i with
  | [], _ => []
  | _ :: rest, O => x :: rest
  | y :: rest, S j => y :: set_nth j x rest
  end.

(** Call [i] takes its next step. *)
Definition sched_step (c : Conc) (i : nat) : Conc :=
  match nth_error (calls c) i with
  | Some pc =>
      let '(pc', w') := read_step pc (cworld c) in
      {| cworld := w'; calls := set_nth i pc' (calls c) |}
  | None => c
  end.

Definition run_sched (s : list nat) (c : Conc) : Conc := fold_left sched_step s c.

(** The schedule in which the calls do not overlap: call 0 runs to its
    return, then call 1, and so on. *)
Fixpoint serial_from (i n : nat) : list nat :=
  match n with
  | O => []
  | S k => i :: i :: i :: serial_from (S i) k
  end.
Definition serial (n : nat) : list nat := serial_from 0 n.

Definition returned_nil (pc : ReadPC) : bool :=
  match pc with Returned None => true | _ => false end.

End Reader.

Arguments ReadMessageFunc U : clear implicits.
Arguments missyReader B W U : clear implicits.
Arguments Goroutine U : clear implicits.
Arguments World B W U : clear implicits.
Arguments M B W U A : clear implicits.
Arguments Op U : clear implicits.
Arguments ReadPC U : clear implicits.
Arguments Conc B W U : clear implicits.

(** ** The constructor *)

Section NewReader.

Context {K W U : Type}.

(** [kafka.NewReader] of the broker library, and [NewWriter] of
    writer.go. *)
Variable kafka_NewReader : ReaderConfig -> K.
Variable NewWriter : list string -> string -> W.

(** [NewReader]: the reader it returns, and what it logs. *)
Definition NewReader (brokers : list string) (groupID topic : string)
  : missyReader (readBroker K) W U * list Event :=
  let kafkaReader := kafka_NewReader
    {| Brokers := brokers; GroupID := groupID; CfgTopic := topic;
       CommitInterval := 0; MinBytes := 10000; MaxBytes := 10000000 |} in
  let '(parsed, err) := Atoi "number.of.retries" in
  let '(numOfRetries, logged) :=
    match err with
    | Some _ => (5, [EvLog LogDefaultRetries])
    | None => (parsed, [])
    end in
  ({| brokers := brokers;
      groupID := groupID;
      topic := topic;
      brokerReader := {| Reader := kafkaReader |};
      readFunc := None;
      writer := NewWriter brokers topic;
      dlqWriter := NewWriter brokers (topic ++ ".dlq")%string;
      numOfRetries := numOfRetries |},
   logged).

End NewReader.

(** ** Test doubles *)

(** A broker with a fixed sequence of fetch results and of commit results,
    which records what was committed.  Once closed, or once the sequence is
    used up, a fetch fails. *)
Record MockBroker := {
  mbFetch : list (Message * option error);
  mbCommitResults : list (option error);
  mbCommitted : list Message;
  mbClosed : bool
}.

Definition errEOF : error := "EOF".

Definition mock_fetch (ctx : context) (b : MockBroker) : (Message * option error) * MockBroker :=
  if mbClosed b then ((zeroMessage, Some errEOF), b)
  else
    match mbFetch b with
    | [] => ((zeroMessage, Some errEOF), b)
    | r :: rest =>
        (r, {| mbFetch := rest; mbCommitResults := mbCommitResults b;
               mbCommitted := mbCommitted b; mbClosed := false |})
    end.

Definition mock_commit (ctx : context) (msgs : list Message) (b : MockBroker)
  : option error * MockBroker :=
  match mbCommitResults b with
  | Some e :: rest =>
      (Some e, {| mbFetch := mbFetch b; mbCommitResults := rest;
                  mbCommitted := mbCommitted b; mbClosed := mbClosed b |})
  | None :: rest =>
      (None, {| mbFetch := mbFetch b; mbCommitResults := rest;
                mbCommitted := mbCommitted b ++ msgs; mbClosed := mbClosed b |})
  | [] =>
      (None, {| mbFetch := mbFetch b; mbCommitResults := [];
                mbCommitted := mbCommitted b ++ msgs; mbClosed := mbClosed b |})
  end.

Definition mock_close (b : MockBroker) : option error * MockBroker :=
  (None, {| mbFetch := mbFetch b; mbCommitResults := mbCommitResults b;
            mbCommitted := mbCommitted b; mbClosed := true |}).

#[export] Instance MockBroker_BrokerReader : BrokerReader MockBroker := {
  FetchMessage := mock_fetch;
  CommitMessages := mock_commit;
  ReadMessage := mock_fetch;
  Close := mock_close
}.

(** Modelled from the spec: the Writer of writer.go, which is not among the
    sources.  A writer publishes one message to its named topic over a
    connection of its own; [Write] publishes with retry counter 0,
    [WriteWithRetryCounter] with the counter given; the call returns the
    broker's publish error.  [mwResults] is the sequence of results the
    broker gives to the successive publishes. *)
Record MockWriter := {
  mwBrokers : list string;
  mwTopic : string;
  mwOpen : bool;
  mwPublished : list Message;
  mwResults : list (option error)
}.

Definition NewMockWriter (results : list (option error)) (brokers : list string)
    (topic : string) : MockWriter :=
  {| mwBrokers := brokers; mwTopic := topic; mwOpen := true; mwPublished := [];
     mwResults := results |}.

Definition mock_publish (key value : bytes) (rc : Z) (x : MockWriter)
  : option error * MockWriter :=
  let record :=
    {| Topic := mwTopic x; Key := key; Value := value; Time := 0; Partition := 0;
       Offset := 0; RetryCounter := rc |} in
  match mwResults x with
  | Some e :: rest =>
      (Some e, {| mwBrokers := mwBrokers x; mwTopic := mwTopic x; mwOpen := mwOpen x;
                  mwPublished := mwPublished x; mwResults := rest |})
  | _ =>
      (None, {| mwBrokers := mwBrokers x; mwTopic := mwTopic x; mwOpen := mwOpen x;
                mwPublished := mwPublished x ++ [record];
                mwResults := tl (mwResults x) |})
  end.

#[export] Instance MockWriter_Writer : Writer MockWriter := {
  Write := fun key value => mock_publish key value 0;
  WriteWithRetryCounter := mock_publish
}.

(** A kafka reader that hands out a fixed sequence of results. *)
Definition MockKafka := list (KafkaMessage * option error).

Definition zeroKafkaMessage : KafkaMessage :=
  {| KTopic := ""; KPartition := 0; KOffset := 0; KKey := []; KValue := [];
     KHeaders := []; KTime := 0 |}.

Definition mock_kafka_fetch (ctx : context) (k : MockKafka)
  : (KafkaMessage * option error) * MockKafka :=
  match k with
  | [] => ((zeroKafkaMessage, Some errEOF), [])
  | r :: rest => (r, rest)
  end.

(** Callbacks for the examples: one that always fails, one that always
    succeeds; both count their calls. *)
Definition failing (err : error) : ReadMessageFunc nat :=
  fun _ n => (Some err, S n).
Definition succeeding : ReadMessageFunc nat :=
  fun _ n => (None, S n).

Definition sampleMessage (rc : Z) : Message :=
  {| Topic := "orders"; Key := [x6b]; Value := [x76; x31]; Time := 0;
     Partition := 0; Offset := 7; RetryCounter := rc |}.

(** What a writer on [topic] records for [sampleMessage] published with
    counter [rc]. *)
Definition sampleMessage' (topic : string) (rc : Z) : Message :=
  {| Topic := topic; Key := [x6b]; Value := [x76; x31]; Time := 0;
     Partition := 0; Offset := 0; RetryCounter := rc |}.

(** A reader over the test doubles, as [NewReader] lays one out. *)
Definition mockReader (fetches : list (Message * option error))
    (commitResults writeResults dlqResults : list (option error)) (ceiling : Z)
  : missyReader MockBroker MockWriter nat :=
  {| brokers := ["localhost:9092"%string];
     groupID := "group";
     topic := "orders";
     brokerReader := {| mbFetch := fetches; mbCommitResults := commitResults;
                        mbCommitted := []; mbClosed := false |};
     readFunc := None;
     writer := NewMockWriter writeResults ["localhost:9092"%string] "orders";
     dlqWriter := NewMockWriter dlqResults ["localhost:9092"%string] "orders.dlq";
     numOfRetries := ceiling |}.

Definition mockWorld (mr : missyReader MockBroker MockWriter nat)
  : World MockBroker MockWriter nat :=
  {| reader := mr; user := O; trace := []; goroutines := [] |}.

(** The worlds of the examples: one message to fetch, its counter below the
    ceiling of 5 or at it; the same with a broker that refuses the publish;
    and one whose commit fails. *)
Definition retryWorld : World MockBroker MockWriter nat :=
  mockWorld (mockReader [(sampleMessage 0, None)] [] [] [] 5).

Definition exhaustedWorld : World MockBroker MockWriter nat :=
  mockWorld (mockReader [(sampleMessage 5, None)] [] [] [] 5).

Definition errBrokerDown : error := "broker down".

Definition retryRefusedWorld : World MockBroker MockWriter nat :=
  mockWorld (mockReader [(sampleMessage 0, None)] [] [Some errBrokerDown] [] 5).

Definition dlqRefusedWorld : World MockBroker MockWriter nat :=
  mockWorld (mockReader [(sampleMessage 5, None)] [] [] [Some errBrokerDown] 5).

Definition commitRefusedWorld : World MockBroker MockWriter nat :=
  mockWorld (mockReader [(sampleMessage 0, None)] [Some errBrokerDown] [] [] 5).

(** The errors the publishes of a trace returned, and whether some log entry
    of a trace prints a given error. *)
Definition publish_errors (t : list Event) : list error :=
  flat_map (fun e => match publish_error e with Some x => [x] | None => [] end) t.

Definition logs_error (err : error) (t : list Event) : bool :=
  existsb (fun l => existsb (String.eqb err) (entry_errors l)) (log_entries t).

(** A callback event carries a message whose retry counter is 0. *)
Definition callback_counter_zero (e : Event) : Prop :=
  match e with
  | EvCallback m _ => RetryCounter m = 0
  | _ => True
  end.

(** A kafka record that carries a retry counter in a header. *)
Definition retriedRecord : KafkaMessage :=
  {| KTopic := "orders"; KPartition := 0; KOffset := 8; KKey := [x6b];
     KValue := [x76; x31]; KHeaders := [("retryCounter"%string, [x33])];
     KTime := 0 |}.


(** A world with three messages waiting at the broker. *)
Definition busyWorld : World MockBroker MockWriter nat :=
  mockWorld (mockReader
    [(sampleMessage 0, None); (sampleMessage 1, None); (sampleMessage 2, None)]
    [] [] [] 5).

(** [err == nil] *)
Definition is_nil (r : option error) : bool :=
  match r with None => true | Some _ => false end.

(** Calls of [Read] one after the other, none overlapping another. *)
Fixpoint read_all {B W U : Type} (fs : list (ReadMessageFunc U)) (w : World B W U)
  : list (option error) * World B W U :=
  match fs with
  | [] => ([], w)
  | f :: rest =>
      let '(r, w1) := missyReader_Read f w in
      let '(rs, w2) := read_all rest w1 in
      (r :: rs, w2)
  end.

(** Two calls of [Read] on a fresh reader, both about to check. *)
Definition racingReads : Conc MockBroker MockWriter nat :=
  {| cworld := busyWorld;
     calls := [AtCheck succeeding; AtCheck (failing "boom")] |}.

(** ** The shape of a run of the loop *)

(** The events of one complete pass of the loop body, for a reader with the
    given ceiling: a fetch, the new-message line, the callback, and then
    either a republish, a dead-letter publish, or a commit (with the line
    logged when the commit fails). *)
Inductive Pass (ceiling : Z) : list Event -> Prop :=
| PassRetry (m : Message) (e : error) (r : option error) :
    RetryCounter m < ceiling ->
    Pass ceiling
      [EvFetch (m, None); EvLog (LogNewMessage m); EvCallback m (Some e);
       EvLog (LogCallbackError e);
       EvLog (LogRetryNumber (int_add (RetryCounter m) 1));
       EvWriteWithRetryCounter FieldWriter (Key m) (Value m)
         (int_add (RetryCounter m) 1) r]
| PassDlq (m : Message) (e : error) (r : option error) :
    ceiling <= RetryCounter m ->
    Pass ceiling
      [EvFetch (m, None); EvLog (LogNewMessage m); EvCallback m (Some e);
       EvLog (LogCallbackError e); EvLog LogWritingDLQ;
       EvWrite FieldDlqWriter (Key m) (Value m) r]
| PassCommitted (m : Message) :
    Pass ceiling
      [EvFetch (m, None); EvLog (LogNewMessage m); EvCallback m None;
       EvCommit [m] None]
| PassCommitFailed (m : Message) (ce : error) :
    Pass ceiling
      [EvFetch (m, None); EvLog (LogNewMessage m); EvCallback m None;
       EvCommit [m] (Some ce); EvLog (LogCommitError m ce)].

Definition is_fetched (e : Event) : bool :=
  match e with EvFetch (_, None) => true | _ => false end.

Definition is_close (e : Event) : bool :=
  match e with EvClose _ => true | _ => false end.

(** A publish is a republish with retry counter 1 on the retry writer. *)
Definition first_retry (e : Event) : Prop :=
  is_publish e = true ->
  exists key value res, e = EvWriteWithRetryCounter FieldWriter key value 1 res.

(** ** Conversions of the adapter, composed *)

(** A kafka record as [CommitMessages] rebuilds it from the message that
    [FetchMessage] made of it: the headers are gone. *)
Definition strip_headers (k : KafkaMessage) : KafkaMessage :=
  {| KTopic := KTopic k; KPartition := KPartition k; KOffset := KOffset k;
     KKey := KKey k; KValue := KValue k; KHeaders := []; KTime := KTime k |}.

(** A message as the adapter would fetch it back: the retry counter is 0. *)
Definition reset_counter (m : Message) : Message :=
  {| Topic := Topic m; Key := Key m; Value := Value m; Time := Time m;
     Partition := Partition m; Offset := Offset m; RetryCounter := 0 |}.

(** A kafka reader double for commits and close, and a world over the
    adapter with one record to fetch. *)
Definition mock_kafka_commit (ctx : context) (recs : list KafkaMessage) (k : MockKafka)
  : option error * MockKafka := (None, k).

Definition mock_kafka_close (k : MockKafka) : option error * MockKafka := (None, []).

Definition adapterInstance : BrokerReader (readBroker MockKafka) :=
  readBroker_BrokerReader mock_kafka_fetch mock_kafka_fetch mock_kafka_commit
    mock_kafka_close.

Definition adapterWorld : World (readBroker MockKafka) MockWriter nat :=
  {| reader :=
       fst (NewReader (fun _ => [(retriedRecord, None)]) (NewMockWriter [])
              ["localhost:9092"%string] "group" "orders");
     user := O; trace := []; goroutines := [] |}.

(** ** Calls of Read in flight *)

(** How many calls have returned [nil]. *)
Definition nil_returns {U : Type} (l : list (ReadPC U)) : nat :=
  List.length (filter returned_nil l).

(** A call that is still at its check, or has returned the error. *)
Definition refused_or_waiting {U : Type} (pc : ReadPC U) : Prop :=
  (exists f, pc = AtCheck f) \/ pc = Returned (Some errReading).

(** * Properties *)

(** ** Go integers *)

Lemma wrap_int_id (z : Z) : is_int z -> wrap_int z = z.
Proof.
  unfold is_int, wrap_int, int_min, int_max. intros Hz.
  rewrite Z.mod_small; lia.
Qed.

Lemma int_add_exact (a b : Z) : is_int (a + b) -> int_add a b = a + b.
Proof. apply wrap_int_id. Qed.

Lemma succ_below_ceiling (rc ceiling : Z) :
  is_int rc -> is_int ceiling -> rc < ceiling -> int_add rc 1 = rc + 1.
Proof.
  unfold is_int. intros Hrc Hc Hlt. apply int_add_exact. unfold is_int. lia.
Qed.

(** ** One pass of the loop, case by case *)

Section IterationCases.

Context {B W U : Type} {HB : BrokerReader B} {HW : Writer W}.
Variable msgFunc : ReadMessageFunc U.
Variable w : World B W U.

Let mr := reader w.

Ltac run_body :=
  unfold iteration, call_FetchMessage, call_CommitMessages, call_msgFunc,
    call_dlqWriter_Write, call_writer_WriteWithRetryCounter, logf, emit,
    on_reader, get_reader, bind, ret; cbn.

(** The fetch fails: [break]. *)
Lemma iteration_fetch_error m e b' :
  FetchMessage Background (brokerReader mr) = ((m, Some e), b') ->
  iteration msgFunc w =
    (false, {| reader := set_brokerReader b' mr; user := user w;
               trace := trace w ++ [EvFetch (m, Some e)];
               goroutines := goroutines w |}).
Proof.
  intros Hf. subst mr. run_body. rewrite Hf. reflexivity.
Qed.

(** The callback fails below the ceiling: republish, [continue]. *)
Lemma iteration_retry m b' e u' :
  FetchMessage Background (brokerReader mr) = ((m, None), b') ->
  msgFunc m (user w) = (Some e, u') ->
  RetryCounter m < numOfRetries mr ->
  let rc := int_add (RetryCounter m) 1 in
  let pub := WriteWithRetryCounter (Key m) (Value m) rc (writer mr) in
  iteration msgFunc w =
    (true, {| reader := set_writer (snd pub) (set_brokerReader b' mr);
              user := u';
              trace := trace w ++
                [EvFetch (m, None); EvLog (LogNewMessage m);
                 EvCallback m (Some e); EvLog (LogCallbackError e);
                 EvLog (LogRetryNumber rc);
                 EvWriteWithRetryCounter FieldWriter (Key m) (Value m) rc (fst pub)];
              goroutines := goroutines w |}).
Proof.
  intros Hf Hcb Hlt rc pub. subst mr rc pub. run_body.
  rewrite Hf. cbn. rewrite Hcb. cbn.
  destruct (numOfRetries (reader w) <=? RetryCounter m) eqn:Hle.
  - apply Z.leb_le in Hle. lia.
  - destruct (WriteWithRetryCounter _ _ _ _) as [res x]. cbn.
    repeat rewrite <- app_assoc. reflexivity.
Qed.

(** The callback fails at or above the ceiling: dead-letter, [continue]. *)
Lemma iteration_dlq m b' e u' :
  FetchMessage Background (brokerReader mr) = ((m, None), b') ->
  msgFunc m (user w) = (Some e, u') ->
  numOfRetries mr <= RetryCounter m ->
  let pub := Write (Key m) (Value m) (dlqWriter mr) in
  iteration msgFunc w =
    (true, {| reader := set_dlqWriter (snd pub) (set_brokerReader b' mr);
              user := u';
              trace := trace w ++
                [EvFetch (m, None); EvLog (LogNewMessage m);
                 EvCallback m (Some e); EvLog (LogCallbackError e);
                 EvLog LogWritingDLQ;
                 EvWrite FieldDlqWriter (Key m) (Value m) (fst pub)];
              goroutines := goroutines w |}).
Proof.
  intros Hf Hcb Hge pub. subst mr pub. run_body.
  rewrite Hf. cbn. rewrite Hcb. cbn.
  destruct (numOfRetries (reader w) <=? RetryCounter m) eqn:Hle.
  - destruct (Write _ _ _) as [res x]. cbn.
    repeat rewrite <- app_assoc. reflexivity.
  - apply Z.leb_gt in Hle. lia.
Qed.

(** The callback succeeds: commit, log a failure of the commit, go on. *)
Lemma iteration_commit m b' u' :
  FetchMessage Background (brokerReader mr) = ((m, None), b') ->
  msgFunc m (user w) = (None, u') ->
  let com := CommitMessages Background [m] b' in
  iteration msgFunc w =
    (true, {| reader := set_brokerReader (snd com) (set_brokerReader b' mr);
              user := u';
              trace := trace w ++
                [EvFetch (m, None); EvLog (LogNewMessage m);
                 EvCallback m None; EvCommit [m] (fst com)] ++
                match fst com with
                | Some ce => [EvLog (LogCommitError m ce)]
                | None => []
                end;
              goroutines := goroutines w |}).
Proof.
  intros Hf Hcb com. subst mr com. run_body.
  rewrite Hf. cbn. rewrite Hcb. cbn.
  destruct (CommitMessages _ _ _) as [[ce|] b'']; cbn;
    repeat rewrite <- app_assoc; reflexivity.
Qed.

End IterationCases.

(** ** Retry and dead-letter *)

(** C1: when a fetched message [m] makes the callback fail and
    [m.RetryCounter] is below the ceiling, the pass makes exactly one publish,
    a [WriteWithRetryCounter] on the reader's [writer] (which [NewReader]
    opens on the reader's own topic) with [m.Key], [m.Value] and
    [m.RetryCounter + 1]; it commits nothing, and the loop goes on to the next
    fetch. *)
Theorem retry_republishes_with_next_counter
    {B W U : Type} {HB : BrokerReader B} {HW : Writer W}
    (msgFunc : ReadMessageFunc U) (w : World B W U)
    (m : Message) (b' : B) (e : error) (u' : U) :
  FetchMessage Background (brokerReader (reader w)) = ((m, None), b') ->
  msgFunc m (user w) = (Some e, u') ->
  is_int (RetryCounter m) ->
  is_int (numOfRetries (reader w)) ->
  RetryCounter m < numOfRetries (reader w) ->
  let pub := WriteWithRetryCounter (Key m) (Value m) (RetryCounter m + 1)
               (writer (reader w)) in
  let call := EvWriteWithRetryCounter FieldWriter (Key m) (Value m)
                (RetryCounter m + 1) (fst pub) in
  let w' := snd (iteration msgFunc w) in
  (exists evs,
      trace w' = trace w ++ evs /\ publishes evs = [call] /\ commits evs = []) /\
  writer (reader w') = snd pub /\
  dlqWriter (reader w') = dlqWriter (reader w) /\
  fst (iteration msgFunc w) = true /\
  (forall fuel, loop (S fuel) msgFunc w = loop fuel msgFunc w') /\
  (forall (K : Type) (kafka_NewReader : ReaderConfig -> K)
          (NewWriter : list string -> string -> W) brokers groupID topic,
      writer (fst (@NewReader K W U kafka_NewReader NewWriter brokers groupID topic))
      = NewWriter brokers topic).
Proof.
  intros Hf Hcb Hrc Hceil Hlt pub call w'.
  pose proof (iteration_retry msgFunc w m b' e u' Hf Hcb Hlt) as Hit.
  cbv zeta in Hit.
  rewrite (succ_below_ceiling _ _ Hrc Hceil Hlt) in Hit.
  subst w' call pub. rewrite Hit. cbn [fst snd].
  repeat split.
  - eexists. split; [reflexivity | split; reflexivity].
  - intros fuel. cbn [loop]. unfold bind. rewrite Hit. reflexivity.
Qed.

(** C2: when a fetched message [m] makes the callback fail and
    [m.RetryCounter] has reached the ceiling, the pass makes exactly one
    publish, a [Write] of [m.Key] and [m.Value] on the reader's [dlqWriter],
    which [NewReader] opens on the topic with [.dlq] appended; it commits
    nothing and the loop goes on. *)
Theorem exhausted_message_goes_to_dlq
    {B W U : Type} {HB : BrokerReader B} {HW : Writer W}
    (msgFunc : ReadMessageFunc U) (w : World B W U)
    (m : Message) (b' : B) (e : error) (u' : U) :
  FetchMessage Background (brokerReader (reader w)) = ((m, None), b') ->
  msgFunc m (user w) = (Some e, u') ->
  numOfRetries (reader w) <= RetryCounter m ->
  let pub := Write (Key m) (Value m) (dlqWriter (reader w)) in
  let call := EvWrite FieldDlqWriter (Key m) (Value m) (fst pub) in
  let w' := snd (iteration msgFunc w) in
  (exists evs,
      trace w' = trace w ++ evs /\ publishes evs = [call] /\ commits evs = []) /\
  dlqWriter (reader w') = snd pub /\
  writer (reader w') = writer (reader w) /\
  fst (iteration msgFunc w) = true /\
  (forall (K : Type) (kafka_NewReader : ReaderConfig -> K)
          (NewWriter : list string -> string -> W) brokers groupID topic,
      dlqWriter (fst (@NewReader K W U kafka_NewReader NewWriter brokers groupID topic))
      = NewWriter brokers (topic ++ ".dlq")%string).
Proof.
  intros Hf Hcb Hge pub call w'.
  pose proof (iteration_dlq msgFunc w m b' e u' Hf Hcb Hge) as Hit.
  cbv zeta in Hit.
  subst w' call pub. rewrite Hit. cbn [fst snd].
  repeat split.
  eexists. split; [reflexivity | split; reflexivity].
Qed.

Ltac int_range := unfold is_int, int_min, int_max; cbn; lia.

Lemma retry_republishes_witness :
  publishes (trace (snd (iteration (failing "boom") retryWorld)))
  = [EvWriteWithRetryCounter FieldWriter [x6b] [x76; x31] 1 None] /\
  commits (trace (snd (iteration (failing "boom") retryWorld))) = [] /\
  mwPublished (writer (reader (snd (iteration (failing "boom") retryWorld))))
  = [sampleMessage' "orders" 1].
Proof.
  pose proof (retry_republishes_with_next_counter (failing "boom") retryWorld
                (sampleMessage 0)
                {| mbFetch := []; mbCommitResults := []; mbCommitted := [];
                   mbClosed := false |}
                "boom" 1%nat eq_refl eq_refl) as H.
  cbv zeta in H.
  destruct H as [[evs [Ht [Hp Hc]]] [Hw _]]; [int_range | int_range | cbn; lia |].
  rewrite Ht, Hw. cbn [retryWorld mockWorld trace app].
  repeat split; assumption || reflexivity.
Defined.

Lemma exhausted_message_witness :
  publishes (trace (snd (iteration (failing "boom") exhaustedWorld)))
  = [EvWrite FieldDlqWriter [x6b] [x76; x31] None] /\
  commits (trace (snd (iteration (failing "boom") exhaustedWorld))) = [] /\
  mwPublished (dlqWriter (reader (snd (iteration (failing "boom") exhaustedWorld))))
  = [sampleMessage' "orders.dlq" 0].
Proof.
  pose proof (exhausted_message_goes_to_dlq (failing "boom") exhaustedWorld
                (sampleMessage 5)
                {| mbFetch := []; mbCommitResults := []; mbCommitted := [];
                   mbClosed := false |}
                "boom" 1%nat eq_refl eq_refl) as H.
  cbv zeta in H.
  destruct H as [[evs [Ht [Hp Hc]]] [Hw _]]; [cbn; lia |].
  rewrite Ht, Hw. cbn [exhaustedWorld mockWorld trace app].
  repeat split; assumption || reflexivity.
Defined.

(** ** The broker adapter *)

(** What one pass leaves alone: the registered callback, the goroutines, the
    ceiling; and it only adds to the trace. *)
Lemma iteration_frame {B W U : Type} {HB : BrokerReader B} {HW : Writer W}
    (msgFunc : ReadMessageFunc U) (w : World B W U) :
  let w' := snd (iteration msgFunc w) in
  readFunc (reader w') = readFunc (reader w) /\
  goroutines w' = goroutines w /\
  numOfRetries (reader w') = numOfRetries (reader w) /\
  exists evs, trace w' = trace w ++ evs.
Proof.
  cbv zeta.
  destruct (FetchMessage Background (brokerReader (reader w))) as [[m [fe|]] b'] eqn:Hf.
  - rewrite (iteration_fetch_error msgFunc w m fe b' Hf). cbn. eauto.
  - destruct (msgFunc m (user w)) as [[e|] u'] eqn:Hcb.
    + destruct (Z_lt_le_dec (RetryCounter m) (numOfRetries (reader w))) as [Hlt|Hge].
      * rewrite (iteration_retry msgFunc w m b' e u' Hf Hcb Hlt). cbn. eauto.
      * rewrite (iteration_dlq msgFunc w m b' e u' Hf Hcb Hge). cbn. eauto.
    + rewrite (iteration_commit msgFunc w m b' u' Hf Hcb). cbn. eauto.
Qed.

(** C3: a message that [readBroker.FetchMessage] returns without an error
    has [RetryCounter] 0, whatever the context and the kafka record; so a
    message that the loop of a reader over this adapter hands to the callback
    has counter 0. *)
Theorem adapter_delivers_counter_zero
    {K W U : Type} {HW : Writer W}
    (kafka_FetchMessage kafka_ReadMessage :
       context -> K -> (KafkaMessage * option error) * K)
    (kafka_CommitMessages : context -> list KafkaMessage -> K -> option error * K)
    (kafka_Close : K -> option error * K)
    (ctx : context) (rm : readBroker K) (m : Message) (rm' : readBroker K) :
  readBroker_FetchMessage kafka_FetchMessage ctx rm = ((m, None), rm') ->
  RetryCounter m = 0 /\
  forall (msgFunc : ReadMessageFunc U) (w : World (readBroker K) W U),
    exists evs,
      trace (snd (@iteration _ _ _
                    (readBroker_BrokerReader kafka_FetchMessage kafka_ReadMessage
                       kafka_CommitMessages kafka_Close) HW msgFunc w))
      = trace w ++ evs /\
      Forall callback_counter_zero evs.
Proof.
  assert (Hzero : forall c r x r',
             readBroker_FetchMessage kafka_FetchMessage c r = ((x, None), r') ->
             RetryCounter x = 0).
  { intros c r x r'. unfold readBroker_FetchMessage.
    destruct (kafka_FetchMessage c (Reader r)) as [[km [ke|]] k]; intros Heq;
      inversion Heq; subst; reflexivity. }
  intros Hfetch. split; [exact (Hzero _ _ _ _ Hfetch) |].
  intros msgFunc w.
  set (HB := readBroker_BrokerReader kafka_FetchMessage kafka_ReadMessage
               kafka_CommitMessages kafka_Close).
  destruct (@FetchMessage _ HB Background (brokerReader (reader w)))
    as [[m0 [fe|]] b'] eqn:Hf.
  - rewrite (iteration_fetch_error msgFunc w m0 fe b' Hf). cbn.
    eexists; split; [reflexivity | repeat constructor].
  - pose proof (Hzero _ _ _ _ Hf) as Hm0.
    destruct (msgFunc m0 (user w)) as [[e|] u'] eqn:Hcb.
    + destruct (Z_lt_le_dec (RetryCounter m0) (numOfRetries (reader w))) as [Hlt|Hge].
      * rewrite (iteration_retry msgFunc w m0 b' e u' Hf Hcb Hlt). cbn.
        eexists; split; [reflexivity | repeat constructor; exact Hm0].
      * rewrite (iteration_dlq msgFunc w m0 b' e u' Hf Hcb Hge). cbn.
        eexists; split; [reflexivity | repeat constructor; exact Hm0].
    + rewrite (iteration_commit msgFunc w m0 b' u' Hf Hcb). cbn.
      eexists; split; [reflexivity |].
      match goal with
      | |- context [match ?x with Some _ => _ | None => _ end] => destruct x
      end; repeat constructor; exact Hm0.
Qed.

Lemma adapter_counter_zero_witness :
  RetryCounter
    (fst (fst (readBroker_FetchMessage mock_kafka_fetch Background
                 {| Reader := [(retriedRecord, None)] |}))) = 0.
Proof.
  exact (proj1 (@adapter_delivers_counter_zero MockKafka MockWriter nat _
                  mock_kafka_fetch mock_kafka_fetch
                  (fun _ _ k => (None, k)) (fun k => (None, k))
                  Background {| Reader := [(retriedRecord, None)] |}
                  (fromKafka retriedRecord) {| Reader := [] |} eq_refl)).
Defined.

(** ** Publish errors *)

(** C4, as the spec states it, fails: the broker refuses the dead-letter
    publish (and, in the second world, the retry publish) with an error that
    no log entry of the pass prints. *)
Lemma publish_error_is_not_logged :
  publish_errors (trace (snd (iteration (failing "boom") dlqRefusedWorld)))
  = [errBrokerDown] /\
  logs_error errBrokerDown (trace (snd (iteration (failing "boom") dlqRefusedWorld)))
  = false /\
  publish_errors (trace (snd (iteration (failing "boom") retryRefusedWorld)))
  = [errBrokerDown] /\
  logs_error errBrokerDown (trace (snd (iteration (failing "boom") retryRefusedWorld)))
  = false.
Proof. repeat split; vm_compute; reflexivity. Qed.

(** C4, amended: when the callback fails, the publish (retry or dead-letter)
    is the last action of the pass and its result is dropped: whatever it
    returns, the pass logs the new message, the callback's error and the
    retry or dead-letter line, nothing else, and the loop goes on to the next
    fetch with the same goroutines. *)
Theorem publish_result_is_dropped
    {B W U : Type} {HB : BrokerReader B} {HW : Writer W}
    (msgFunc : ReadMessageFunc U) (w : World B W U)
    (m : Message) (b' : B) (e : error) (u' : U) :
  FetchMessage Background (brokerReader (reader w)) = ((m, None), b') ->
  msgFunc m (user w) = (Some e, u') ->
  let w' := snd (iteration msgFunc w) in
  exists pre pub,
    trace w' = trace w ++ pre ++ [pub] /\
    is_publish pub = true /\
    publishes pre = [] /\
    log_entries (pre ++ [pub])
    = [LogNewMessage m; LogCallbackError e;
       if numOfRetries (reader w) <=? RetryCounter m then LogWritingDLQ
       else LogRetryNumber (int_add (RetryCounter m) 1)] /\
    fst (iteration msgFunc w) = true /\
    goroutines w' = goroutines w /\
    forall fuel, loop (S fuel) msgFunc w = loop fuel msgFunc w'.
Proof.
  intros Hf Hcb w'. subst w'.
  destruct (Z_lt_le_dec (RetryCounter m) (numOfRetries (reader w))) as [Hlt|Hge].
  - pose proof (iteration_retry msgFunc w m b' e u' Hf Hcb Hlt) as Hit.
    cbv zeta in Hit.
    assert (Hb : (numOfRetries (reader w) <=? RetryCounter m) = false)
      by (apply Z.leb_gt; exact Hlt).
    rewrite Hb, Hit. cbn [fst snd trace goroutines].
    eexists [_; _; _; _; _], _. repeat split.
    intros fuel. cbn [loop]. unfold bind. rewrite Hit. reflexivity.
  - pose proof (iteration_dlq msgFunc w m b' e u' Hf Hcb Hge) as Hit.
    cbv zeta in Hit.
    assert (Hb : (numOfRetries (reader w) <=? RetryCounter m) = true)
      by (apply Z.leb_le; exact Hge).
    rewrite Hb, Hit. cbn [fst snd trace goroutines].
    eexists [_; _; _; _; _], _. repeat split.
    intros fuel. cbn [loop]. unfold bind. rewrite Hit. reflexivity.
Qed.

Lemma publish_result_is_dropped_witness :
  log_entries (trace (snd (iteration (failing "boom") dlqRefusedWorld)))
  = [LogNewMessage (sampleMessage 5); LogCallbackError "boom"; LogWritingDLQ] /\
  fst (iteration (failing "boom") dlqRefusedWorld) = true.
Proof.
  pose proof (publish_result_is_dropped (failing "boom") dlqRefusedWorld
                (sampleMessage 5)
                {| mbFetch := []; mbCommitResults := []; mbCommitted := [];
                   mbClosed := false |}
                "boom" 1%nat eq_refl eq_refl) as H.
  cbv zeta in H.
  destruct H as [pre [pub [Ht [_ [_ [Hl [Hc _]]]]]]].
  rewrite Ht. cbn [dlqRefusedWorld mockWorld trace app].
  split; [exact Hl | exact Hc].
Defined.

(** ** Commit *)

(** C7: when the callback succeeds on [m], the pass makes exactly one commit
    call, for [m]; if that call fails the failure is logged; in either case
    nothing is published, on the retry writer or on the dead-letter writer,
    and the loop goes on to the next fetch. *)
Theorem success_commits_once
    {B W U : Type} {HB : BrokerReader B} {HW : Writer W}
    (msgFunc : ReadMessageFunc U) (w : World B W U)
    (m : Message) (b' : B) (u' : U) :
  FetchMessage Background (brokerReader (reader w)) = ((m, None), b') ->
  msgFunc m (user w) = (None, u') ->
  let com := CommitMessages Background [m] b' in
  let w' := snd (iteration msgFunc w) in
  exists evs,
    trace w' = trace w ++ evs /\
    commits evs = [EvCommit [m] (fst com)] /\
    publishes evs = [] /\
    log_entries evs
    = LogNewMessage m ::
      match fst com with Some ce => [LogCommitError m ce] | None => [] end /\
    writer (reader w') = writer (reader w) /\
    dlqWriter (reader w') = dlqWriter (reader w) /\
    fst (iteration msgFunc w) = true /\
    forall fuel, loop (S fuel) msgFunc w = loop fuel msgFunc w'.
Proof.
  intros Hf Hcb com w'.
  pose proof (iteration_commit msgFunc w m b' u' Hf Hcb) as Hit.
  cbv zeta in Hit. subst w' com. rewrite Hit. cbn [fst snd trace reader].
  eexists. split; [reflexivity |].
  destruct (fst (CommitMessages Background [m] b')); cbn; repeat split;
    intros fuel; cbn [loop]; unfold bind; rewrite Hit; reflexivity.
Qed.

Lemma success_commits_once_witness :
  commits (trace (snd (iteration succeeding commitRefusedWorld)))
  = [EvCommit [sampleMessage 0] (Some errBrokerDown)] /\
  publishes (trace (snd (iteration succeeding commitRefusedWorld))) = [] /\
  log_entries (trace (snd (iteration succeeding commitRefusedWorld)))
  = [LogNewMessage (sampleMessage 0);
     LogCommitError (sampleMessage 0) errBrokerDown] /\
  fst (iteration succeeding commitRefusedWorld) = true.
Proof.
  pose proof (success_commits_once succeeding commitRefusedWorld
                (sampleMessage 0)
                {| mbFetch := []; mbCommitResults := [Some errBrokerDown];
                   mbCommitted := []; mbClosed := false |}
                1%nat eq_refl eq_refl) as H.
  cbv zeta in H.
  destruct H as [evs [Ht [Hc [Hp [Hl [_ [_ [Ht' _]]]]]]]].
  rewrite Ht. cbn [commitRefusedWorld mockWorld trace app].
  repeat split; assumption.
Defined.

(** ** Close *)

(** A fetch that fails ends the loop at once: nothing is called after it. *)
Lemma loop_ends_on_fetch_error
    {B W U : Type} {HB : BrokerReader B} {HW : Writer W}
    (msgFunc : ReadMessageFunc U) (w : World B W U) m e b' (fuel : nat) :
  FetchMessage Background (brokerReader (reader w)) = ((m, Some e), b') ->
  fst (loop (S fuel) msgFunc w) = true /\
  trace (snd (loop (S fuel) msgFunc w)) = trace w ++ [EvFetch (m, Some e)].
Proof.
  intros Hf. cbn [loop]. unfold bind.
  rewrite (iteration_fetch_error msgFunc w m e b' Hf). cbn. split; reflexivity.
Qed.

(** C5, as the spec states it, fails: after [Close] the broker double is
    closed, and the connections of both writers are still open. *)
Lemma close_leaves_writers_open :
  mbClosed (brokerReader (reader (snd (missyReader_Close busyWorld)))) = true /\
  mwOpen (writer (reader (snd (missyReader_Close busyWorld)))) = true /\
  mwOpen (dlqWriter (reader (snd (missyReader_Close busyWorld)))) = true.
Proof. repeat split. Qed.

(** C5, amended: [Close] closes the broker reader, returns what that
    returned, and does nothing else: it makes no call on the retry writer or
    the dead-letter writer and leaves both as they were.  The loop ends at
    the first fetch that fails, without another call of the callback. *)
Theorem close_closes_the_broker_only
    {B W U : Type} {HB : BrokerReader B} {HW : Writer W} (w : World B W U) :
  let res := Close (brokerReader (reader w)) in
  let w' := snd (missyReader_Close w) in
  fst (missyReader_Close w) = fst res /\
  brokerReader (reader w') = snd res /\
  writer (reader w') = writer (reader w) /\
  dlqWriter (reader w') = dlqWriter (reader w) /\
  readFunc (reader w') = readFunc (reader w) /\
  trace w' = trace w ++ [EvClose (fst res)] /\
  goroutines w' = goroutines w /\
  forall (msgFunc : ReadMessageFunc U) (w1 : World B W U) m e b' fuel,
    FetchMessage Background (brokerReader (reader w1)) = ((m, Some e), b') ->
    fst (loop (S fuel) msgFunc w1) = true /\
    callbacks (trace (snd (loop (S fuel) msgFunc w1))) = callbacks (trace w1).
Proof.
  assert (Hloop : forall (msgFunc : ReadMessageFunc U) (w1 : World B W U) m e b' fuel,
             FetchMessage Background (brokerReader (reader w1)) = ((m, Some e), b') ->
             fst (loop (S fuel) msgFunc w1) = true /\
             callbacks (trace (snd (loop (S fuel) msgFunc w1))) = callbacks (trace w1)).
  { intros msgFunc w1 m e b' fuel Hf.
    destruct (loop_ends_on_fetch_error msgFunc w1 m e b' fuel Hf) as [Hend Ht].
    split; [exact Hend |].
    rewrite Ht. unfold callbacks. rewrite filter_app. cbn. apply app_nil_r. }
  cbv zeta. unfold missyReader_Close, bind, get_reader, on_reader, emit, ret.
  destruct (Close (brokerReader (reader w))) as [res b]. cbn [fst snd reader trace
    goroutines set_brokerReader brokerReader writer dlqWriter readFunc].
  repeat (split; [reflexivity |]). exact Hloop.
Qed.

Lemma close_closes_the_broker_only_witness :
  fst (loop 3 succeeding (snd (missyReader_Close busyWorld))) = true /\
  callbacks (trace (snd (loop 3 succeeding (snd (missyReader_Close busyWorld))))) = [] /\
  mwOpen (writer (reader (snd (missyReader_Close busyWorld)))) = true.
Proof.
  destruct (close_closes_the_broker_only busyWorld)
    as [_ [_ [Hw [_ [_ [_ [_ Hloop]]]]]]].
  assert (Hf : FetchMessage Background
                 (brokerReader (reader (snd (missyReader_Close busyWorld))))
               = ((zeroMessage, Some errEOF),
                  brokerReader (reader (snd (missyReader_Close busyWorld)))))
    by (vm_compute; reflexivity).
  destruct (Hloop succeeding _ _ _ _ 2%nat Hf) as [Hend Hcb].
  split; [exact Hend | split; [exact Hcb |]].
  rewrite Hw. reflexivity.
Defined.

(** ** The retry ceiling *)

Example Atoi_digits : Atoi "3" = (3, None).
Proof. reflexivity. Qed.

Example Atoi_signed : Atoi "-12" = (-12, None) /\ Atoi "+7" = (7, None).
Proof. split; reflexivity. Qed.

Example Atoi_empty : snd (Atoi "") <> None /\ snd (Atoi "+") <> None.
Proof. split; discriminate. Qed.

Example Atoi_out_of_range :
  Atoi "9223372036854775808"
  = (int_max, Some (range_error "Atoi" "9223372036854775808")).
Proof. reflexivity. Qed.

(** C6: the ceiling of a reader that [NewReader] builds.  [NewReader]
    hands [strconv.Atoi] the name of the key, [number.of.retries], not a
    value read from the configuration; that text is not a number, so the
    conversion fails for every input, the debug line is logged and the
    ceiling is 5. *)
Theorem ceiling_is_always_the_default
    {K W U : Type} (kafka_NewReader : ReaderConfig -> K)
    (NewWriter : list string -> string -> W)
    (brokers : list string) (groupID topic : string) :
  Atoi "number.of.retries" = (0, Some (syntax_error "Atoi" "number.of.retries")) /\
  numOfRetries (fst (@NewReader K W U kafka_NewReader NewWriter brokers groupID topic)) = 5 /\
  snd (@NewReader K W U kafka_NewReader NewWriter brokers groupID topic)
  = [EvLog LogDefaultRetries].
Proof. repeat split. Qed.

(** ** Read *)

(** C8: [Read] on a reader that has a callback returns the error and changes
    nothing; on a reader without one it returns [nil], registers the callback
    and starts one goroutine for it. *)
Theorem read_rejects_a_second_call
    {B W U : Type} {HB : BrokerReader B} {HW : Writer W}
    (msgFunc : ReadMessageFunc U) (w : World B W U) :
  (forall g, readFunc (reader w) = Some g ->
     missyReader_Read msgFunc w = (Some errReading, w)) /\
  (readFunc (reader w) = None ->
     fst (missyReader_Read msgFunc w) = None /\
     readFunc (reader (snd (missyReader_Read msgFunc w))) = Some msgFunc /\
     goroutines (snd (missyReader_Read msgFunc w))
     = goroutines w ++ [{| gFunc := msgFunc; gRunning := true |}] /\
     trace (snd (missyReader_Read msgFunc w)) = trace w /\
     brokerReader (reader (snd (missyReader_Read msgFunc w))) = brokerReader (reader w)).
Proof.
  unfold missyReader_Read, store_readFunc, go_loop, bind, get_reader, on_reader, ret.
  split.
  - intros g Hg. cbn. rewrite Hg. reflexivity.
  - intros Hn. cbn. rewrite Hn. cbn. repeat split.
Qed.

Lemma read_rejects_a_second_call_witness :
  fst (missyReader_Read succeeding busyWorld) = None /\
  missyReader_Read (failing "boom") (snd (missyReader_Read succeeding busyWorld))
  = (Some errReading, snd (missyReader_Read succeeding busyWorld)) /\
  List.length (goroutines (snd (missyReader_Read succeeding busyWorld))) = 1%nat.
Proof.
  destruct (read_rejects_a_second_call succeeding busyWorld) as [_ Hfirst].
  destruct (Hfirst eq_refl) as [Hnil [Hreg [Hgo _]]].
  destruct (read_rejects_a_second_call (failing "boom")
              (snd (missyReader_Read succeeding busyWorld))) as [Hsecond _].
  split; [exact Hnil | split; [exact (Hsecond _ Hreg) |]].
  rewrite Hgo. reflexivity.
Defined.

(** ** A reader is never restarted *)

Lemma stop_at_length {U : Type} (i : nat) (gs : list (Goroutine U)) :
  List.length (stop_at i gs) = List.length gs.
Proof.
  revert i. induction gs as [|g gs IH]; intros [|i]; cbn; auto.
Qed.

Lemma run_goroutine_frame {B W U : Type} {HB : BrokerReader B} {HW : Writer W}
    (i : nat) (w : World B W U) :
  readFunc (reader (snd (run_goroutine i w))) = readFunc (reader w) /\
  List.length (goroutines (snd (run_goroutine i w))) = List.length (goroutines w).
Proof.
  unfold run_goroutine.
  destruct (nth_error (goroutines w) i) as [g|]; [| split; reflexivity].
  destruct (gRunning g); [| split; reflexivity].
  pose proof (iteration_frame (gFunc g) w) as Hfr. cbv zeta in Hfr.
  destruct (iteration (gFunc g) w) as [continue w'].
  cbn [snd] in Hfr. destruct Hfr as [Hrf [Hgo _]].
  destruct continue; cbn [snd reader goroutines].
  - rewrite Hrf, Hgo. split; reflexivity.
  - rewrite stop_at_length, Hrf, Hgo. split; reflexivity.
Qed.

(** Once a callback is registered, no operation removes or replaces it, and
    no operation starts another goroutine. *)
Lemma apply_op_keeps_callback {B W U : Type} {HB : BrokerReader B} {HW : Writer W}
    (f : ReadMessageFunc U) (w : World B W U) (o : Op U) :
  readFunc (reader w) = Some f ->
  readFunc (reader (apply_op w o)) = Some f /\
  List.length (goroutines (apply_op w o)) = List.length (goroutines w).
Proof.
  intros Hf. destruct o as [g| |i]; cbn [apply_op].
  - unfold missyReader_Read, bind, get_reader. rewrite Hf. cbn. auto.
  - unfold missyReader_Close, bind, get_reader, on_reader, emit, ret.
    destruct (Close (brokerReader (reader w))) as [res b]. cbn. auto.
  - destruct (run_goroutine_frame i w) as [Hrf Hgo]. rewrite Hrf, Hgo. auto.
Qed.

Lemma run_ops_keeps_callback {B W U : Type} {HB : BrokerReader B} {HW : Writer W}
    (f : ReadMessageFunc U) (ops : list (Op U)) (w : World B W U) :
  readFunc (reader w) = Some f ->
  readFunc (reader (run_ops ops w)) = Some f /\
  List.length (goroutines (run_ops ops w)) = List.length (goroutines w).
Proof.
  revert w. induction ops as [|o ops IH]; intros w Hf; cbn; [auto |].
  destruct (apply_op_keeps_callback f w o Hf) as [Hrf Hgo].
  destruct (IH _ Hrf) as [Hrf' Hgo']. fold (run_ops ops (apply_op w o)).
  rewrite Hrf', Hgo', Hgo. auto.
Qed.

(** C10: after a [Read] that succeeded, whatever follows (calls of [Read],
    calls of [Close], passes of the loop), the registered callback stays,
    every later [Read] returns the error, and no further goroutine is
    started. *)
Theorem reader_is_never_restarted
    {B W U : Type} {HB : BrokerReader B} {HW : Writer W}
    (msgFunc g : ReadMessageFunc U) (w : World B W U) (ops : list (Op U)) :
  fst (missyReader_Read msgFunc w) = None ->
  let w1 := run_ops ops (snd (missyReader_Read msgFunc w)) in
  readFunc (reader w1) = Some msgFunc /\
  missyReader_Read g w1 = (Some errReading, w1) /\
  List.length (goroutines w1) = S (List.length (goroutines w)).
Proof.
  intros Hok w1.
  assert (Hreg : readFunc (reader (snd (missyReader_Read msgFunc w))) = Some msgFunc /\
                 List.length (goroutines (snd (missyReader_Read msgFunc w)))
                 = S (List.length (goroutines w))).
  { revert Hok. unfold missyReader_Read, store_readFunc, go_loop, bind, get_reader,
      on_reader, ret. cbn.
    destruct (readFunc (reader w)); cbn; [discriminate |].
    intros _. rewrite length_app. cbn. split; [reflexivity | lia]. }
  destruct Hreg as [Hrf Hgo].
  destruct (run_ops_keeps_callback msgFunc ops _ Hrf) as [Hrf1 Hgo1].
  fold w1 in Hrf1, Hgo1.
  split; [exact Hrf1 |]. split; [| rewrite Hgo1; exact Hgo].
  unfold missyReader_Read, bind, get_reader. rewrite Hrf1. reflexivity.
Qed.

Lemma reader_is_never_restarted_witness :
  fst (missyReader_Read (failing "boom")
         (run_ops [OpStep 0; OpClose; OpStep 0; OpRead succeeding; OpStep 0]
            (snd (missyReader_Read succeeding busyWorld))))
  = Some errReading.
Proof.
  destruct (reader_is_never_restarted succeeding (failing "boom") busyWorld
              [OpStep 0; OpClose; OpStep 0; OpRead succeeding; OpStep 0] eq_refl)
    as [_ [Hread _]].
  rewrite Hread. reflexivity.
Defined.

(** ** Concurrent calls of Read *)

Lemma nth_error_middle {A : Type} (done : list A) (x : A) (rest : list A) :
  nth_error (done ++ x :: rest) (List.length done) = Some x.
Proof. induction done as [|d done IH]; cbn; auto. Qed.

Lemma set_nth_middle {A : Type} (done : list A) (x y : A) (rest : list A) :
  set_nth (List.length done) y (done ++ x :: rest) = done ++ y :: rest.
Proof. induction done as [|d done IH]; cbn; [reflexivity | now rewrite IH]. Qed.

Lemma sched_step_middle {B W U : Type}
    (w : World B W U) (done : list (ReadPC U)) (pc : ReadPC U) (rest : list (ReadPC U)) :
  sched_step {| cworld := w; calls := done ++ pc :: rest |} (List.length done)
  = {| cworld := snd (read_step pc w);
       calls := done ++ fst (read_step pc w) :: rest |}.
Proof.
  unfold sched_step. cbn [calls cworld]. rewrite nth_error_middle.
  destruct (read_step pc w) as [pc' w']. cbn [fst snd].
  now rewrite set_nth_middle.
Qed.

(** The three steps of one call, taken without another call in between, are
    [Read]. *)
Lemma uninterrupted_call_is_Read {B W U : Type}
    (f : ReadMessageFunc U) (w : World B W U) (done rest : list (ReadPC U)) :
  let i := List.length done in
  run_sched [i; i; i] {| cworld := w; calls := done ++ AtCheck f :: rest |}
  = {| cworld := snd (missyReader_Read f w);
       calls := done ++ Returned (fst (missyReader_Read f w)) :: rest |}.
Proof.
  cbv zeta. unfold run_sched. cbn [fold_left].
  rewrite sched_step_middle.
  unfold missyReader_Read, bind, get_reader, ret. cbn [read_step fst snd].
  destruct (readFunc (reader w)) as [g|]; cbn [fst snd].
  - rewrite sched_step_middle. cbn [read_step fst snd].
    rewrite sched_step_middle. reflexivity.
  - rewrite sched_step_middle. cbn [read_step fst snd].
    rewrite sched_step_middle. cbn [read_step fst snd].
    destruct (store_readFunc f w) as [[] w1]. cbn [fst snd].
    destruct (go_loop f w1) as [[] w2]. reflexivity.
Qed.

Lemma serial_run {B W U : Type} (fs : list (ReadMessageFunc U)) :
  forall (done : list (ReadPC U)) (w : World B W U),
    run_sched (serial_from (List.length done) (List.length fs))
      {| cworld := w; calls := done ++ map AtCheck fs |}
    = {| cworld := snd (read_all fs w);
         calls := done ++ map Returned (fst (read_all fs w)) |}.
Proof.
  induction fs as [|f fs IH]; intros done w; [reflexivity |].
  cbn [List.length serial_from map read_all].
  change (run_sched (?i :: ?i :: ?i :: ?s) ?c) with (run_sched s (run_sched [i; i; i] c)).
  pose proof (uninterrupted_call_is_Read f w done (map AtCheck fs)) as Hcall.
  cbv zeta in Hcall. rewrite Hcall.
  destruct (missyReader_Read f w) as [r w1]. cbn [fst snd].
  specialize (IH (done ++ [Returned r]) w1).
  rewrite length_app, Nat.add_1_r, <- app_assoc in IH. cbn [app] in IH.
  rewrite IH. destruct (read_all fs w1) as [rs w2]. cbn [fst snd map].
  now rewrite <- app_assoc.
Qed.

Lemma read_all_registered {B W U : Type} (fs : list (ReadMessageFunc U)) :
  forall (w : World B W U) (g : ReadMessageFunc U),
    readFunc (reader w) = Some g ->
    snd (read_all fs w) = w /\ filter is_nil (fst (read_all fs w)) = [].
Proof.
  induction fs as [|f fs IH]; intros w g Hg; [split; reflexivity |].
  cbn [read_all]. unfold missyReader_Read, bind, get_reader, ret. rewrite Hg.
  destruct (IH w g Hg) as [Hw Hn].
  destruct (read_all fs w) as [rs w2]. cbn in *. auto.
Qed.

Lemma read_all_bounds {B W U : Type} (fs : list (ReadMessageFunc U)) (w : World B W U) :
  (List.length (goroutines (snd (read_all fs w))) <= S (List.length (goroutines w)))%nat /\
  (List.length (filter is_nil (fst (read_all fs w))) <= 1)%nat.
Proof.
  destruct fs as [|f fs]; [cbn; lia |].
  destruct (readFunc (reader w)) as [g|] eqn:Hg.
  - destruct (read_all_registered (f :: fs) w g Hg) as [Hw Hn].
    rewrite Hw, Hn. cbn. lia.
  - cbn [read_all].
    unfold missyReader_Read, store_readFunc, go_loop, bind, get_reader, on_reader, ret.
    rewrite Hg.
    match goal with
    | |- context [read_all fs ?x] =>
        destruct (read_all_registered fs x f eq_refl) as [Hw Hn];
        destruct (read_all fs x) as [rs w2]
    end.
    cbn [fst snd] in *. subst w2. cbn [filter is_nil goroutines].
    rewrite Hn, length_app. cbn. lia.
Qed.

Lemma returned_nil_filter {U : Type} (rs : list (option error)) :
  filter returned_nil (map (@Returned U) rs) = map (@Returned U) (filter is_nil rs).
Proof.
  induction rs as [|[e|] rs IH]; cbn; [reflexivity | exact IH | now rewrite IH].
Qed.

(** C9, as the spec states it, fails: two calls of [Read] on a fresh reader
    whose steps alternate both find no callback, both return [nil], and two
    consume loops are started. *)
Lemma overlapping_reads_both_start :
  calls (run_sched [0; 1; 0; 1; 0; 1]%nat racingReads)
  = [Returned None; Returned None] /\
  List.length (goroutines (cworld (run_sched [0; 1; 0; 1; 0; 1]%nat racingReads)))
  = 2%nat.
Proof. split; reflexivity. Qed.

(** C9, amended: the guard is a check and a later store with no lock.  Calls
    of [Read] on one reader that do not overlap behave as [Read] called one
    after the other: together they start at most one consume loop, and at
    most one of them returns [nil]. *)
Theorem serial_reads_start_at_most_one_loop
    {B W U : Type} (fs : list (ReadMessageFunc U)) (w : World B W U) :
  let c := run_sched (serial (List.length fs))
             {| cworld := w; calls := map AtCheck fs |} in
  c = {| cworld := snd (read_all fs w);
         calls := map Returned (fst (read_all fs w)) |} /\
  (List.length (goroutines (cworld c)) <= S (List.length (goroutines w)))%nat /\
  (List.length (filter returned_nil (calls c)) <= 1)%nat.
Proof.
  cbv zeta. unfold serial.
  pose proof (serial_run fs [] w) as Hrun. cbn [app List.length] in Hrun.
  rewrite Hrun. cbn [cworld calls].
  split; [reflexivity |].
  destruct (read_all_bounds fs w) as [Hgo Hnil].
  split; [exact Hgo |].
  rewrite returned_nil_filter, length_map. exact Hnil.
Qed.


(** * The whole loop *)

Section LoopRuns.

Context {B W U : Type} {HB : BrokerReader B} {HW : Writer W}.
Variable msgFunc : ReadMessageFunc U.

(** What a pass does not touch: the reader's configuration. *)
Lemma iteration_config (w : World B W U) :
  let w' := snd (iteration msgFunc w) in
  brokers (reader w') = brokers (reader w) /\
  groupID (reader w') = groupID (reader w) /\
  topic (reader w') = topic (reader w) /\
  numOfRetries (reader w') = numOfRetries (reader w).
Proof.
  cbv zeta.
  destruct (FetchMessage Background (brokerReader (reader w))) as [[m [fe|]] b'] eqn:Hf.
  - rewrite (iteration_fetch_error msgFunc w m fe b' Hf). cbn. auto.
  - destruct (msgFunc m (user w)) as [[e|] u'] eqn:Hcb.
    + destruct (Z_lt_le_dec (RetryCounter m) (numOfRetries (reader w))) as [Hlt|Hge].
      * rewrite (iteration_retry msgFunc w m b' e u' Hf Hcb Hlt). cbn. auto.
      * rewrite (iteration_dlq msgFunc w m b' e u' Hf Hcb Hge). cbn. auto.
    + rewrite (iteration_commit msgFunc w m b' u' Hf Hcb). cbn. auto.
Qed.

(** A pass either stops at a failed fetch, or is complete and continues. *)
Lemma iteration_pass (w : World B W U) :
  (fst (iteration msgFunc w) = false /\
   exists m e, trace (snd (iteration msgFunc w)) = trace w ++ [EvFetch (m, Some e)]) \/
  (fst (iteration msgFunc w) = true /\
   exists p, Pass (numOfRetries (reader w)) p /\
             trace (snd (iteration msgFunc w)) = trace w ++ p).
Proof.
  destruct (FetchMessage Background (brokerReader (reader w))) as [[m [fe|]] b'] eqn:Hf.
  - left. rewrite (iteration_fetch_error msgFunc w m fe b' Hf). cbn. eauto.
  - right. destruct (msgFunc m (user w)) as [[e|] u'] eqn:Hcb.
    + destruct (Z_lt_le_dec (RetryCounter m) (numOfRetries (reader w))) as [Hlt|Hge].
      * rewrite (iteration_retry msgFunc w m b' e u' Hf Hcb Hlt). cbn.
        split; [reflexivity |]. eexists. split; [| reflexivity].
        now apply PassRetry.
      * rewrite (iteration_dlq msgFunc w m b' e u' Hf Hcb Hge). cbn.
        split; [reflexivity |]. eexists. split; [| reflexivity].
        now apply PassDlq.
    + rewrite (iteration_commit msgFunc w m b' u' Hf Hcb). cbn.
      split; [reflexivity |].
      destruct (fst (CommitMessages Background [m] b')) as [ce|];
        (eexists; split; [| reflexivity]); constructor.
Qed.

Lemma loop_unfold (fuel : nat) (w : World B W U) :
  loop (S fuel) msgFunc w =
    if fst (iteration msgFunc w) then loop fuel msgFunc (snd (iteration msgFunc w))
    else (true, snd (iteration msgFunc w)).
Proof.
  cbn [loop]. unfold bind, ret. destruct (iteration msgFunc w) as [[|] w1]; reflexivity.
Qed.

(** The shape of a run, by induction on the passes it makes. *)
Lemma loop_shape (fuel : nat) (w : World B W U) :
  exists passes tail,
    trace (snd (loop fuel msgFunc w)) = trace w ++ List.concat passes ++ tail /\
    Forall (Pass (numOfRetries (reader w))) passes /\
    (List.length passes <= fuel)%nat /\
    if fst (loop fuel msgFunc w)
    then exists m e, tail = [EvFetch (m, Some e)]
    else tail = [] /\ List.length passes = fuel.
Proof.
  revert w. induction fuel as [|fuel IH]; intros w.
  - exists [], []. cbn. rewrite app_nil_r. auto.
  - rewrite loop_unfold.
    destruct (iteration_pass w) as [[Hc [m [e Ht]]] | [Hc [p [Hp Ht]]]]; rewrite Hc.
    + exists [], [EvFetch (m, Some e)]. cbn [fst snd List.concat app List.length].
      split; [exact Ht |]. split; [constructor |]. split; [lia | eauto].
    + destruct (IH (snd (iteration msgFunc w))) as [passes [tail [Htr [Hall [Hlen Hend]]]]].
      destruct (iteration_config w) as [_ [_ [_ Hn]]]. rewrite Hn in Hall.
      exists (p :: passes), tail. cbn [List.concat List.length].
      split; [rewrite Htr, Ht; now rewrite <- !app_assoc |].
      split; [now constructor |]. split; [lia |].
      destruct (fst (loop fuel msgFunc (snd (iteration msgFunc w)))); [exact Hend |].
      destruct Hend as [Htl Hl]. split; [exact Htl | now rewrite Hl].
Qed.

(** X1: a run of the loop is a sequence of complete passes, each of one of
    the four shapes of [Pass]; if the loop has ended, the run closes with
    the one failed fetch that ended it, and if it has not, it made as many
    passes as it was given. *)
Theorem loop_is_a_sequence_of_passes (fuel : nat) (w : World B W U) :
  exists passes tail,
    trace (snd (loop fuel msgFunc w)) = trace w ++ List.concat passes ++ tail /\
    Forall (Pass (numOfRetries (reader w))) passes /\
    (List.length passes <= fuel)%nat /\
    if fst (loop fuel msgFunc w)
    then exists m e, tail = [EvFetch (m, Some e)]
    else tail = [] /\ List.length passes = fuel.
Proof. exact (loop_shape fuel w). Qed.

Lemma Pass_counts (ceiling : Z) (p : list Event) :
  Pass ceiling p ->
  List.length (filter is_fetched p) = 1%nat /\
  List.length (callbacks p) = 1%nat /\
  (List.length (commits p) + List.length (publishes p) = 1)%nat.
Proof. intros Hp. destruct Hp; cbn; auto. Qed.

Lemma passes_counts (ceiling : Z) (passes : list (list Event)) :
  Forall (Pass ceiling) passes ->
  List.length (filter is_fetched (List.concat passes)) = List.length passes /\
  List.length (callbacks (List.concat passes)) = List.length passes /\
  (List.length (commits (List.concat passes)) + List.length (publishes (List.concat passes))
   = List.length passes)%nat.
Proof.
  unfold callbacks, commits, publishes.
  induction 1 as [|p passes Hp _ IH]; [cbn; auto |].
  destruct (Pass_counts _ _ Hp) as [Hf [Hc Hcp]].
  unfold callbacks, commits, publishes in Hc, Hcp.
  destruct IH as [IHf [IHc IHcp]].
  cbn [List.concat List.length]. rewrite !filter_app, !length_app. lia.
Qed.

(** X2: in any run of the loop, the callback is called once for each
    message fetched, and each call of the callback is answered by exactly
    one commit or one publish: the numbers of fetched messages and of
    callback calls are equal, and equal the number of commits plus the number
    of publishes. *)
Theorem loop_settles_every_message_once (fuel : nat) (w : World B W U) :
  exists evs,
    trace (snd (loop fuel msgFunc w)) = trace w ++ evs /\
    List.length (callbacks evs) = List.length (filter is_fetched evs) /\
    (List.length (commits evs) + List.length (publishes evs)
     = List.length (callbacks evs))%nat /\
    (List.length (callbacks evs) <= fuel)%nat.
Proof.
  destruct (loop_shape fuel w)
    as [passes [tail [Htr [Hall [Hlen Hend]]]]].
  exists (List.concat passes ++ tail). split; [exact Htr |].
  destruct (passes_counts _ _ Hall) as [Hf [Hc Hcp]].
  assert (Htail : filter is_fetched tail = [] /\ callbacks tail = [] /\
                  commits tail = [] /\ publishes tail = []).
  { destruct (fst (loop fuel msgFunc w)).
    - destruct Hend as [m [e ->]]. cbn. auto.
    - destruct Hend as [-> _]. cbn. auto. }
  destruct Htail as [Tf [Tc [Tm Tp]]].
  unfold callbacks, commits, publishes in *.
  rewrite !filter_app, !length_app, Tf, Tc, Tm, Tp. cbn [List.length]. lia.
Qed.

End LoopRuns.

Section LoopActions.

Context {B W U : Type} {HB : BrokerReader B} {HW : Writer W}.
Variable msgFunc : ReadMessageFunc U.

(** Within a pass, a commit answers a callback that returned [nil], a
    publish one that returned an error. *)
Lemma Pass_actions (ceiling : Z) (p : list Event) :
  Pass ceiling p ->
  (forall msgs r, In (EvCommit msgs r) p ->
     exists m, msgs = [m] /\ In (EvCallback m None) p) /\
  (forall f key value r, In (EvWrite f key value r) p ->
     f = FieldDlqWriter /\
     exists m e, In (EvCallback m (Some e)) p /\ key = Key m /\ value = Value m /\
                 ceiling <= RetryCounter m) /\
  (forall f key value rc r, In (EvWriteWithRetryCounter f key value rc r) p ->
     f = FieldWriter /\
     exists m e, In (EvCallback m (Some e)) p /\ key = Key m /\ value = Value m /\
                 rc = int_add (RetryCounter m) 1 /\ RetryCounter m < ceiling) /\
  (forall r, ~ In (EvClose r) p).
Proof.
  intros Hp. destruct Hp; (repeat split);
    try (intros; cbn in *; intuition discriminate);
    intros; cbn in *;
    repeat match goal with
    | H : _ \/ _ |- _ => destruct H as [H|H]; try discriminate
    | H : False |- _ => destruct H
    end;
    match goal with H : _ = _ |- _ => inversion H; subst end;
    eauto 12.
Qed.

(** X3: whatever a run of the loop commits or publishes answers a call of
    the callback in that run: a commit is of the one message on which the
    callback returned [nil]; a [Write] is on the dead-letter writer, with the
    key and value of a message on which the callback failed with its counter
    at or above the ceiling; a [WriteWithRetryCounter] is on the retry writer,
    with the key, value and counter plus one of a message on which the
    callback failed below the ceiling.  The loop never closes the broker. *)
Theorem loop_acts_only_on_callback_results (fuel : nat) (w : World B W U) :
  exists evs,
    trace (snd (loop fuel msgFunc w)) = trace w ++ evs /\
    (forall msgs r, In (EvCommit msgs r) evs ->
       exists m, msgs = [m] /\ In (EvCallback m None) evs) /\
    (forall f key value r, In (EvWrite f key value r) evs ->
       f = FieldDlqWriter /\
       exists m e, In (EvCallback m (Some e)) evs /\ key = Key m /\ value = Value m /\
                   numOfRetries (reader w) <= RetryCounter m) /\
    (forall f key value rc r, In (EvWriteWithRetryCounter f key value rc r) evs ->
       f = FieldWriter /\
       exists m e, In (EvCallback m (Some e)) evs /\ key = Key m /\ value = Value m /\
                   rc = int_add (RetryCounter m) 1 /\
                   RetryCounter m < numOfRetries (reader w)) /\
    (forall r, ~ In (EvClose r) evs).
Proof.
  destruct (loop_shape msgFunc fuel w) as [passes [tail [Htr [Hall [_ Hend]]]]].
  exists (List.concat passes ++ tail). split; [exact Htr |].
  assert (Htail : forall ev, In ev tail -> exists m e, ev = EvFetch (m, Some e)).
  { intros ev Hin. destruct (fst (loop fuel msgFunc w)).
    - destruct Hend as [m [e ->]]. destruct Hin as [<-|[]]. eauto.
    - destruct Hend as [-> _]. destruct Hin. }
  assert (Hfind : forall ev, In ev (List.concat passes ++ tail) ->
            (exists p, Pass (numOfRetries (reader w)) p /\ In ev p /\
                       forall x, In x p -> In x (List.concat passes ++ tail)) \/
            exists m e, ev = EvFetch (m, Some e)).
  { intros ev Hin. apply in_app_or in Hin. destruct Hin as [Hin|Hin]; [left | right; auto].
    apply in_concat in Hin. destruct Hin as [p [Hp Hev]].
    exists p. split; [exact (proj1 (Forall_forall _ _) Hall p Hp) |].
    split; [exact Hev |]. intros x Hx. apply in_or_app. left.
    apply in_concat. eauto. }
  refine (conj _ (conj _ (conj _ _))).
  - intros msgs r Hin.
    destruct (Hfind _ Hin) as [[p [Hp [Hev Hsub]]] | [m [e Heq]]]; [| discriminate].
    destruct (proj1 (Pass_actions _ _ Hp) msgs r Hev) as [m [Hm Hcb]]. eauto.
  - intros f key value r Hin.
    destruct (Hfind _ Hin) as [[p [Hp [Hev Hsub]]] | [m [e Heq]]]; [| discriminate].
    destruct (proj1 (proj2 (Pass_actions _ _ Hp)) f key value r Hev)
      as [Hf [m [e [Hcb Hrest]]]].
    split; [exact Hf |]. exists m, e. split; [apply Hsub; exact Hcb | exact Hrest].
  - intros f key value rc r Hin.
    destruct (Hfind _ Hin) as [[p [Hp [Hev Hsub]]] | [m [e Heq]]]; [| discriminate].
    destruct (proj1 (proj2 (proj2 (Pass_actions _ _ Hp))) f key value rc r Hev)
      as [Hf [m [e [Hcb Hrest]]]].
    split; [exact Hf |]. exists m, e. split; [apply Hsub; exact Hcb | exact Hrest].
  - intros r Hin.
    destruct (Hfind _ Hin) as [[p [Hp [Hev Hsub]]] | [m [e Heq]]]; [| discriminate].
    exact (proj2 (proj2 (proj2 (Pass_actions _ _ Hp))) r Hev).
Qed.

(** X4: a run of the loop leaves the reader's registration and settings as
    they were: the registered callback, the goroutines, the brokers, the
    group, the topic and the ceiling. *)
Theorem loop_keeps_the_reader_settings (fuel : nat) (w : World B W U) :
  let w' := snd (loop fuel msgFunc w) in
  readFunc (reader w') = readFunc (reader w) /\
  goroutines w' = goroutines w /\
  brokers (reader w') = brokers (reader w) /\
  groupID (reader w') = groupID (reader w) /\
  topic (reader w') = topic (reader w) /\
  numOfRetries (reader w') = numOfRetries (reader w).
Proof.
  cbv zeta. revert w. induction fuel as [|fuel IH]; intros w; [cbn; auto 7 |].
  rewrite loop_unfold.
  pose proof (iteration_frame msgFunc w) as Hfr. cbv zeta in Hfr.
  destruct Hfr as [Hrf [Hgo _]].
  destruct (iteration_config msgFunc w) as [Hb [Hg [Ht Hn]]].
  destruct (fst (iteration msgFunc w)); cbn [snd].
  - destruct (IH (snd (iteration msgFunc w))) as [Irf [Igo [Ib [Ig [It In']]]]].
    rewrite Irf, Igo, Ib, Ig, It, In'. auto 7.
  - auto 7.
Qed.

(** X5: once the loop has ended, more fuel changes nothing: the run that
    ended is the run. *)
Theorem loop_end_is_final (fuel : nat) (w : World B W U) :
  fst (loop fuel msgFunc w) = true ->
  forall more, loop (fuel + more) msgFunc w = loop fuel msgFunc w.
Proof.
  revert w. induction fuel as [|fuel IH]; intros w Hend more; [discriminate |].
  cbn [Nat.add]. rewrite !loop_unfold. rewrite loop_unfold in Hend.
  destruct (fst (iteration msgFunc w)); [| reflexivity].
  apply IH. exact Hend.
Qed.

End LoopActions.

Lemma loop_end_is_final_witness :
  fst (loop 4 succeeding busyWorld) = true /\
  loop (4 + 10) succeeding busyWorld = loop 4 succeeding busyWorld.
Proof.
  assert (Hend : fst (loop 4 succeeding busyWorld) = true) by (vm_compute; reflexivity).
  split; [exact Hend |].
  exact (loop_end_is_final succeeding 4 busyWorld Hend 10).
Defined.

(** * The broker adapter, method by method *)

Section AdapterMethods.

Context {K : Type}.
Variable kafka_FetchMessage kafka_ReadMessage :
  context -> K -> (KafkaMessage * option error) * K.
Variable kafka_CommitMessages : context -> list KafkaMessage -> K -> option error * K.
Variable kafka_Close : K -> option error * K.

(** X6: the two conversions of the adapter, composed.  A record fetched and
    then committed goes back to kafka with the topic, partition, offset, key,
    value and time it came with, and nothing else of it; a message committed
    and fetched again comes back the same but for its retry counter, which is
    0. *)
Theorem adapter_conversions_round_trip (k : KafkaMessage) (m : Message) :
  toKafka (fromKafka k) = strip_headers k /\
  fromKafka (toKafka m) = reset_counter m /\
  (KHeaders k = [] -> toKafka (fromKafka k) = k) /\
  (RetryCounter m = 0 -> fromKafka (toKafka m) = m).
Proof.
  repeat split.
  - intros Hh. destruct k; cbn in *; subst; reflexivity.
  - intros Hz. destruct m; cbn in *; subst; reflexivity.
Qed.

(** X7: what [FetchMessage] and [ReadMessage] return.  Both return an error
    exactly when the kafka call did, and the same one; with an error the
    message is [Message{}], whatever record kafka handed back; without one the
    message carries the record's six fields; its retry counter is 0 either
    way; and the adapter's reader is left in the state kafka returned. *)
Theorem adapter_fetch_and_read_results (ctx : context) (rm : readBroker K) :
  let shape (call : context -> K -> (KafkaMessage * option error) * K)
            (res : (Message * option error) * readBroker K) :=
    snd (fst res) = snd (fst (call ctx (Reader rm))) /\
    Reader (snd res) = snd (call ctx (Reader rm)) /\
    RetryCounter (fst (fst res)) = 0 /\
    (snd (fst res) <> None -> fst (fst res) = zeroMessage) /\
    (snd (fst res) = None ->
     toKafka (fst (fst res)) = strip_headers (fst (fst (call ctx (Reader rm))))) in
  shape kafka_FetchMessage (readBroker_FetchMessage kafka_FetchMessage ctx rm) /\
  shape kafka_ReadMessage (readBroker_ReadMessage kafka_ReadMessage ctx rm).
Proof.
  cbv zeta. unfold readBroker_FetchMessage, readBroker_ReadMessage. split.
  - destruct (kafka_FetchMessage ctx (Reader rm)) as [[k [e|]] k1]; cbn;
      repeat split; congruence.
  - destruct (kafka_ReadMessage ctx (Reader rm)) as [[k [e|]] k1]; cbn;
      repeat split; congruence.
Qed.


Lemma readBroker_fetch_counter (ctx : context) (rm : readBroker K) m rm' :
  readBroker_FetchMessage kafka_FetchMessage ctx rm = ((m, None), rm') ->
  RetryCounter m = 0.
Proof.
  unfold readBroker_FetchMessage.
  destruct (kafka_FetchMessage ctx (Reader rm)) as [[km [ke|]] k]; intros Heq;
    inversion Heq; subst; reflexivity.
Qed.

Context {W U : Type} {HW : Writer W}.
Variable msgFunc : ReadMessageFunc U.

Let adapter : BrokerReader (readBroker K) :=
  readBroker_BrokerReader kafka_FetchMessage kafka_ReadMessage kafka_CommitMessages
    kafka_Close.

(** X9: fetch, callback, commit through the adapter.  When kafka hands out a
    record and the callback succeeds on the message made of it, the pass
    makes one commit, and it is the kafka commit of that record (its topic,
    partition and offset unchanged), on the reader state the fetch left; the
    adapter ends in the state that commit returned. *)
Theorem adapter_commits_the_fetched_record
    (w : World (readBroker K) W U) (k : KafkaMessage) (k1 : K) (u' : U) :
  kafka_FetchMessage Background (Reader (brokerReader (reader w))) = ((k, None), k1) ->
  msgFunc (fromKafka k) (user w) = (None, u') ->
  let com := kafka_CommitMessages Background [strip_headers k] k1 in
  let w' := snd (@iteration _ _ _ adapter HW msgFunc w) in
  exists evs,
    trace w' = trace w ++ evs /\
    commits evs = [EvCommit [fromKafka k] (fst com)] /\
    publishes evs = [] /\
    brokerReader (reader w') = {| Reader := snd com |}.
Proof.
  intros Hk Hcb com w'.
  assert (Hf : @FetchMessage _ adapter Background (brokerReader (reader w))
               = ((fromKafka k, None), {| Reader := k1 |})).
  { cbn. unfold readBroker_FetchMessage. rewrite Hk. reflexivity. }
  pose proof (@iteration_commit _ _ _ adapter HW msgFunc w _ _ u' Hf Hcb) as Hit.
  cbv zeta in Hit. subst w'. rewrite Hit. cbn [snd trace reader brokerReader
    set_brokerReader].
  assert (Hcom : @CommitMessages _ adapter Background [fromKafka k] {| Reader := k1 |}
                 = (fst com, {| Reader := snd com |})).
  { subst com. cbn. unfold readBroker_CommitMessages. cbn [map Reader].
    change (toKafka (fromKafka k)) with (strip_headers k).
    destruct (kafka_CommitMessages Background [strip_headers k] k1); reflexivity. }
  rewrite Hcom. cbn [fst snd]. eexists. split; [reflexivity |].
  destruct (fst com); repeat split.
Qed.

End AdapterMethods.

Lemma adapter_conversions_round_trip_witness :
  toKafka (fromKafka zeroKafkaMessage) = zeroKafkaMessage /\
  fromKafka (toKafka (sampleMessage 0)) = sampleMessage 0 /\
  toKafka (fromKafka retriedRecord) <> retriedRecord.
Proof.
  destruct (adapter_conversions_round_trip zeroKafkaMessage (sampleMessage 0))
    as [_ [_ [Hk Hm]]].
  split; [exact (Hk eq_refl) | split; [exact (Hm eq_refl) | discriminate]].
Defined.

Lemma adapter_commits_the_fetched_record_witness :
  commits (trace (snd (@iteration _ _ _ adapterInstance _ succeeding adapterWorld)))
  = [EvCommit [fromKafka retriedRecord] None].
Proof.
  destruct (adapter_commits_the_fetched_record mock_kafka_fetch mock_kafka_fetch
              mock_kafka_commit mock_kafka_close succeeding adapterWorld
              retriedRecord [] 1%nat eq_refl eq_refl)
    as [evs [Ht [Hc _]]].
  fold adapterInstance in Ht. rewrite Ht. exact Hc.
Defined.

Lemma adapter_fetch_and_read_results_witness :
  readBroker_ReadMessage mock_kafka_fetch Background
    {| Reader := [(retriedRecord, Some errBrokerDown)] |}
  = ((zeroMessage, Some errBrokerDown), {| Reader := [] |}).
Proof.
  destruct (adapter_fetch_and_read_results mock_kafka_fetch mock_kafka_fetch Background
              {| Reader := [(retriedRecord, Some errBrokerDown)] |})
    as [_ [Herr [Hst [_ [Hzero _]]]]].
  destruct (readBroker_ReadMessage mock_kafka_fetch Background
              {| Reader := [(retriedRecord, Some errBrokerDown)] |})
    as [[m err] [k]].
  cbn in Herr, Hst, Hzero. subst err k.
  rewrite (Hzero ltac:(discriminate)). reflexivity.
Defined.

Lemma loop_acts_only_on_callback_results_witness :
  exists evs,
    trace (snd (loop 4 succeeding busyWorld)) = evs /\
    forall msgs r, In (EvCommit msgs r) evs ->
      exists m, msgs = [m] /\ In (EvCallback m None) evs.
Proof.
  destruct (loop_acts_only_on_callback_results succeeding 4 busyWorld)
    as [evs [Ht [Hcommit _]]].
  exists evs. split; [exact Ht | exact Hcommit].
Defined.

(** * A reader from NewReader *)

Section LoopEvents.

Context {B W U : Type} {HB : BrokerReader B} {HW : Writer W}.
Variable msgFunc : ReadMessageFunc U.
Variable P : Event -> Prop.
Variable Inv : World B W U -> Prop.

Hypothesis pass_keeps :
  forall w, Inv w ->
    Inv (snd (iteration msgFunc w)) /\
    exists evs, trace (snd (iteration msgFunc w)) = trace w ++ evs /\ Forall P evs.

(** What holds of the events of every pass holds of the events of a run. *)
Lemma loop_events_Forall (fuel : nat) :
  forall w, Inv w ->
    exists evs, trace (snd (loop fuel msgFunc w)) = trace w ++ evs /\ Forall P evs.
Proof.
  induction fuel as [|fuel IH]; intros w Hw.
  - exists []. cbn. rewrite app_nil_r. auto.
  - rewrite loop_unfold. destruct (pass_keeps w Hw) as [Hw1 [evs [Ht Hall]]].
    destruct (fst (iteration msgFunc w)); cbn [snd]; [| eauto].
    destruct (IH _ Hw1) as [evs' [Ht' Hall']].
    exists (evs ++ evs'). split; [rewrite Ht', Ht; now rewrite app_assoc |].
    apply Forall_app. auto.
Qed.

End LoopEvents.

Lemma Pass_first_retry (ceiling : Z) (p : list Event) :
  Pass ceiling p -> 0 < ceiling -> Forall callback_counter_zero p ->
  Forall first_retry p.
Proof.
  intros Hp Hpos Hzero.
  assert (Hcb : forall m r, In (EvCallback m r) p -> RetryCounter m = 0).
  { intros m r Hin. exact (proj1 (Forall_forall _ _) Hzero _ Hin). }
  destruct Hp as [m e r Hlt | m e r Hge | m | m ce];
    repeat constructor; unfold first_retry; cbn; try discriminate; intros _.
  - rewrite (Hcb m (Some e)) by (cbn; auto 6). eauto.
  - rewrite (Hcb m (Some e)) in Hge by (cbn; auto 6). lia.
Qed.

Section FromNewReader.

Context {K W U : Type} {HW : Writer W}.
Variable kafka_FetchMessage kafka_ReadMessage :
  context -> K -> (KafkaMessage * option error) * K.
Variable kafka_CommitMessages : context -> list KafkaMessage -> K -> option error * K.
Variable kafka_Close : K -> option error * K.
Variable kafka_NewReader : ReaderConfig -> K.
Variable NewWriter : list string -> string -> W.

Let adapter : BrokerReader (readBroker K) :=
  readBroker_BrokerReader kafka_FetchMessage kafka_ReadMessage kafka_CommitMessages
    kafka_Close.

Lemma adapter_pass_counters (msgFunc : ReadMessageFunc U) (w : World (readBroker K) W U) :
  exists evs,
    trace (snd (@iteration _ _ _ adapter HW msgFunc w)) = trace w ++ evs /\
    Forall callback_counter_zero evs.
Proof.
  destruct (@FetchMessage _ adapter Background (brokerReader (reader w)))
    as [[m0 [fe|]] b'] eqn:Hf.
  - rewrite (iteration_fetch_error msgFunc w m0 fe b' Hf). cbn.
    eexists; split; [reflexivity | repeat constructor].
  - pose proof (readBroker_fetch_counter kafka_FetchMessage _ _ _ _ Hf) as Hm0.
    destruct (msgFunc m0 (user w)) as [[e|] u'] eqn:Hcb.
    + destruct (Z_lt_le_dec (RetryCounter m0) (numOfRetries (reader w))) as [Hlt|Hge].
      * rewrite (iteration_retry msgFunc w m0 b' e u' Hf Hcb Hlt). cbn.
        eexists; split; [reflexivity | repeat constructor; exact Hm0].
      * rewrite (iteration_dlq msgFunc w m0 b' e u' Hf Hcb Hge). cbn.
        eexists; split; [reflexivity | repeat constructor; exact Hm0].
    + rewrite (iteration_commit msgFunc w m0 b' u' Hf Hcb). cbn.
      eexists; split; [reflexivity |].
      match goal with
      | |- context [match ?x with Some _ => _ | None => _ end] => destruct x
      end; repeat constructor; exact Hm0.
Qed.

(** X10: a reader over the adapter whose ceiling is positive never
    dead-letters: in any run of its loop every publish is a republish on the
    retry writer with retry counter 1, because every message the adapter
    delivers has counter 0.  The ceiling of a reader from [NewReader] is
    positive, so this is every reader that [NewReader] builds. *)
Theorem adapter_reader_never_dead_letters
    (msgFunc : ReadMessageFunc U) (w : World (readBroker K) W U) (fuel : nat) :
  0 < numOfRetries (reader w) ->
  (exists evs,
     trace (snd (@loop _ _ _ adapter HW fuel msgFunc w)) = trace w ++ evs /\
     Forall first_retry evs) /\
  (forall brokers groupID topic,
     0 < numOfRetries (fst (@NewReader K W U kafka_NewReader NewWriter
                              brokers groupID topic))).
Proof.
  intros Hpos. split; [| intros; reflexivity].
  apply (@loop_events_Forall _ _ _ adapter HW msgFunc first_retry
           (fun x => 0 < numOfRetries (reader x))); [| exact Hpos].
  intros x Hx.
  destruct (@iteration_config _ _ _ adapter HW msgFunc x) as [_ [_ [_ Hn]]].
  split; [rewrite Hn; exact Hx |].
  destruct (adapter_pass_counters msgFunc x) as [evs [Ht Hzero]].
  exists evs. split; [exact Ht |].
  destruct (@iteration_pass _ _ _ adapter HW msgFunc x)
    as [[_ [m [e Ht']]] | [_ [p [Hp Ht']]]];
    rewrite Ht in Ht'; apply app_inv_head in Ht'; subst evs.
  - repeat constructor. unfold first_retry. cbn. discriminate.
  - exact (Pass_first_retry _ _ Hp Hx Hzero).
Qed.

(** X11: a reader fresh from [NewReader] has no callback: the first [Read]
    on it returns [nil] and starts its one goroutine, with nothing fetched
    or logged by the call itself, and a second [Read] is refused. *)
Theorem new_reader_accepts_one_read
    (brokers : list string) (groupID topic : string)
    (first second : ReadMessageFunc U) (u : U) :
  let w := {| reader := fst (@NewReader K W U kafka_NewReader NewWriter
                               brokers groupID topic);
              user := u;
              trace := snd (@NewReader K W U kafka_NewReader NewWriter
                              brokers groupID topic);
              goroutines := [] |} in
  let w1 := snd (missyReader_Read first w) in
  fst (missyReader_Read first w) = None /\
  goroutines w1 = [{| gFunc := first; gRunning := true |}] /\
  trace w1 = [EvLog LogDefaultRetries] /\
  missyReader_Read second w1 = (Some errReading, w1).
Proof. cbv zeta. repeat split. Qed.

End FromNewReader.

Lemma adapter_reader_never_dead_letters_witness :
  publishes (trace (snd (@loop _ _ _ adapterInstance _ 2 (failing "boom") adapterWorld)))
  = [EvWriteWithRetryCounter FieldWriter [x6b] [x76; x31] 1 None] /\
  Forall first_retry
    (trace (snd (@loop _ _ _ adapterInstance _ 2 (failing "boom") adapterWorld))).
Proof.
  split; [vm_compute; reflexivity |].
  destruct (adapter_reader_never_dead_letters mock_kafka_fetch mock_kafka_fetch
              mock_kafka_commit mock_kafka_close (fun _ => @nil _)
              (NewMockWriter []) (failing "boom") adapterWorld 2)
    as [[evs [Ht Hall]] _]; [reflexivity |].
  fold adapterInstance in Ht. rewrite Ht. exact Hall.
Defined.

(** * Read and Close, composed *)

Lemma stop_at_middle {U : Type} (gs : list (Goroutine U)) (g : Goroutine U)
    (rest : list (Goroutine U)) :
  stop_at (List.length gs) (gs ++ g :: rest)
  = gs ++ {| gFunc := gFunc g; gRunning := false |} :: rest.
Proof. induction gs as [|x gs IH]; cbn; [reflexivity | now rewrite IH]. Qed.

(** X12: [Read] does not look at whether the reader was closed.  On a reader
    without a callback that has been closed, [Read] still returns [nil] and
    starts a goroutine; if the closed broker fails the fetch, that goroutine
    stops on its first pass, silently: the callback is never called and
    [Read] has already reported success. *)
Theorem read_after_close_is_accepted
    {B W U : Type} {HB : BrokerReader B} {HW : Writer W}
    (msgFunc : ReadMessageFunc U) (w : World B W U) (m : Message) (e : error) (b' : B) :
  readFunc (reader w) = None ->
  FetchMessage Background (snd (Close (brokerReader (reader w)))) = ((m, Some e), b') ->
  let w1 := snd (missyReader_Close w) in
  let w2 := snd (missyReader_Read msgFunc w1) in
  let i := List.length (goroutines w) in
  let w3 := snd (run_goroutine i w2) in
  fst (missyReader_Read msgFunc w1) = None /\
  goroutines w2 = goroutines w ++ [{| gFunc := msgFunc; gRunning := true |}] /\
  goroutines w3 = goroutines w ++ [{| gFunc := msgFunc; gRunning := false |}] /\
  callbacks (trace w3) = callbacks (trace w) /\
  snd (run_goroutine i w3) = w3.
Proof.
  intros Hnone Hfetch. cbv zeta.
  unfold missyReader_Close, bind, get_reader, on_reader, emit, ret.
  destruct (Close (brokerReader (reader w))) as [res b] eqn:Hclose.
  cbn [fst snd] in *.
  unfold missyReader_Read, store_readFunc, go_loop, bind, get_reader, on_reader, ret.
  cbn [fst snd reader readFunc set_brokerReader]. rewrite Hnone.
  cbn [fst snd reader goroutines trace user].
  split; [reflexivity |]. split; [reflexivity |].
  match goal with
  | |- context [run_goroutine _ ?x] => set (w2 := x)
  end.
  assert (Hf2 : FetchMessage Background (brokerReader (reader w2)) = ((m, Some e), b'))
    by exact Hfetch.
  assert (Hrun : snd (run_goroutine (List.length (goroutines w)) w2)
                 = {| reader := set_brokerReader b' (reader w2); user := user w2;
                      trace := trace w2 ++ [EvFetch (m, Some e)];
                      goroutines := goroutines w ++
                                      [{| gFunc := msgFunc; gRunning := false |}] |}).
  { unfold run_goroutine. subst w2. cbn [goroutines].
    rewrite nth_error_middle. cbn [gRunning gFunc].
    match goal with
    | |- context [iteration msgFunc ?x] =>
        rewrite (iteration_fetch_error msgFunc x m e b' Hfetch)
    end.
    cbn [snd reader user trace goroutines]. now rewrite stop_at_middle. }
  rewrite Hrun. cbn [goroutines trace].
  split; [reflexivity |]. split.
  - subst w2. cbn [trace]. unfold callbacks. rewrite !filter_app. cbn.
    now rewrite !app_nil_r.
  - unfold run_goroutine. cbn [goroutines]. now rewrite nth_error_middle.
Qed.

Lemma read_after_close_is_accepted_witness :
  fst (missyReader_Read succeeding (snd (missyReader_Close busyWorld))) = None /\
  callbacks (trace (snd (run_goroutine 0
     (snd (missyReader_Read succeeding (snd (missyReader_Close busyWorld))))))) = [].
Proof.
  assert (Hf : FetchMessage Background (snd (Close (brokerReader (reader busyWorld))))
               = ((zeroMessage, Some errEOF),
                  snd (Close (brokerReader (reader busyWorld)))))
    by (vm_compute; reflexivity).
  destruct (read_after_close_is_accepted succeeding busyWorld zeroMessage errEOF _
              eq_refl Hf) as [Hnil [_ [_ [Hcb _]]]].
  split; [exact Hnil | exact Hcb].
Defined.

(** * Calls of Read under any schedule *)

Section AnySchedule.

Context {B W U : Type}.

Lemma nil_returns_set_nth (i : nat) (pc pc' : ReadPC U) (l : list (ReadPC U)) :
  nth_error l i = Some pc ->
  (nil_returns (set_nth i pc' l) + (if returned_nil pc then 1 else 0)
   = nil_returns l + (if returned_nil pc' then 1 else 0))%nat.
Proof.
  unfold nil_returns. revert i. induction l as [|x l IH]; intros [|i] Hn; cbn in Hn;
    try discriminate.
  - inversion Hn; subst. cbn. destruct (returned_nil pc), (returned_nil pc'); cbn; lia.
  - specialize (IH i Hn). cbn. destruct (returned_nil x); cbn; lia.
Qed.

Lemma sched_step_balance (c : Conc B W U) (i : nat) :
  (List.length (goroutines (cworld (sched_step c i))) + nil_returns (calls c)
   = List.length (goroutines (cworld c)) + nil_returns (calls (sched_step c i)))%nat.
Proof.
  unfold sched_step. destruct (nth_error (calls c) i) as [pc|] eqn:Hn; [| lia].
  pose proof (fun pc' => nil_returns_set_nth i pc pc' (calls c) Hn) as Hset.
  destruct pc as [f|f|f|r]; cbn [read_step].
  - destruct (readFunc (reader (cworld c))); cbn [cworld calls];
      match goal with |- context [set_nth i ?x _] => specialize (Hset x) end;
      cbn in Hset; lia.
  - cbn [cworld calls snd store_readFunc on_reader goroutines].
    specialize (Hset (AtGo f)). cbn in Hset. cbn. lia.
  - cbn [cworld calls snd go_loop goroutines]. rewrite length_app.
    specialize (Hset (Returned None)). cbn in Hset. cbn. lia.
  - cbn [cworld calls]. specialize (Hset (Returned r)). lia.
Qed.

(** X13: under every schedule of the steps of any calls of [Read], a call
    returns [nil] exactly when it has started a goroutine: the goroutines
    added equal the [nil] returns added, however the steps interleave. *)
Theorem every_nil_return_started_a_loop (s : list nat) (c : Conc B W U) :
  (List.length (goroutines (cworld (run_sched s c))) + nil_returns (calls c)
   = List.length (goroutines (cworld c)) + nil_returns (calls (run_sched s c)))%nat.
Proof.
  revert c. induction s as [|i s IH]; intros c; [cbn; lia |].
  unfold run_sched. cbn [fold_left]. fold (run_sched s (sched_step c i)).
  specialize (IH (sched_step c i)). pose proof (sched_step_balance c i). lia.
Qed.

Lemma Forall_set_nth {A : Type} (Q : A -> Prop) (i : nat) (x : A) (l : list A) :
  Forall Q l -> Q x -> Forall Q (set_nth i x l).
Proof.
  intros Hl Hx. revert i. induction Hl as [|y l Hy Hl IH]; intros [|i]; cbn;
    constructor; auto.
Qed.

(** X14: once a callback is registered the guard holds under every
    schedule: whatever the interleaving of any number of calls of [Read]
    that begin after that, none of them gets past the check, each that has
    finished returned the error, and the reader, its goroutines included, is
    left as it was. *)
Theorem registered_reader_refuses_under_every_schedule
    (fs : list (ReadMessageFunc U)) (w : World B W U) (g : ReadMessageFunc U)
    (s : list nat) :
  readFunc (reader w) = Some g ->
  let c := run_sched s {| cworld := w; calls := map AtCheck fs |} in
  cworld c = w /\ Forall refused_or_waiting (calls c).
Proof.
  intros Hg. cbv zeta.
  assert (Hinit : Forall refused_or_waiting (map (@AtCheck U) fs)).
  { apply Forall_forall. intros pc Hin. apply in_map_iff in Hin.
    destruct Hin as [f [<- _]]. left. eauto. }
  revert Hinit. generalize (map (@AtCheck U) fs) as l. clear fs.
  induction s as [|i s IH]; intros l Hl; [cbn; auto |].
  unfold run_sched. cbn [fold_left].
  assert (Hstep : exists l', sched_step {| cworld := w; calls := l |} i
                             = {| cworld := w; calls := l' |} /\
                             Forall refused_or_waiting l').
  { unfold sched_step. cbn [calls cworld].
    destruct (nth_error l i) as [pc|] eqn:Hn; [| eauto].
    assert (Hpc : refused_or_waiting pc)
      by exact (proj1 (Forall_forall _ _) Hl pc (nth_error_In _ _ Hn)).
    destruct Hpc as [[f ->] | ->]; cbn [read_step]; [rewrite Hg |];
      (eexists; split; [reflexivity |]); apply Forall_set_nth; auto;
      right; reflexivity. }
  destruct Hstep as [l' [-> Hl']]. exact (IH l' Hl').
Qed.

End AnySchedule.

Lemma registered_reader_refuses_witness :
  calls (run_sched [1; 0; 1; 0; 0; 1]%nat
           {| cworld := snd (missyReader_Read succeeding busyWorld);
              calls := map AtCheck [failing "boom"; succeeding] |})
  = [Returned (Some errReading); Returned (Some errReading)] /\
  cworld (run_sched [1; 0; 1; 0; 0; 1]%nat
            {| cworld := snd (missyReader_Read succeeding busyWorld);
               calls := map AtCheck [failing "boom"; succeeding] |})
  = snd (missyReader_Read succeeding busyWorld).
Proof.
  split; [reflexivity |].
  exact (proj1 (registered_reader_refuses_under_every_schedule
                  [failing "boom"; succeeding]
                  (snd (missyReader_Read succeeding busyWorld)) succeeding
                  [1; 0; 1; 0; 0; 1]%nat eq_refl)).
Defined.
